(** * Egg generation logic of [src/utilities/eggLogic.py]

    A shallow embedding of the Python module and the properties its
    specification states about it.

    Python integers are unbounded, so they are [Z]; [//] and [%] with a
    positive divisor are [Z.div] and [Z.modulo] (both floor).  The egg
    dictionaries are finite maps from field names to values.  The two
    ambient effects of the module, the pseudo-random generator and the wall
    clock, are threaded explicitly through a small state-and-exception
    monad.  The [print] calls of the source only write to standard output
    and are left out. *)

From Stdlib Require Import ZArith List Lia Bool Ascii String.
From stdpp Require Import base option list gmap strings.

Local Open Scope Z_scope.

(** ** Exceptions, the world, and the monad *)

(** The built-in exceptions the module can run into. *)
Inductive exn : Type :=
| ValueError   (* random.randrange / random.randint on an empty range *)
| IndexError   (* random.choice on an empty sequence *)
| TypeError.   (* unpacking or subscripting None *)

(** What the code reads from its environment.
    - [tape]: the values the generator's primitive [_randbelow] will be
      reduced from, in order; a seeded generator is a fixed tape.  An
      exhausted tape keeps answering with 0.
    - [clock k]: the value [int(time.time() * 1000)] takes at the [k]-th
      reading of the wall clock; [reads] counts the readings made so far. *)
Record World : Type := mkWorld {
  tape  : list Z;
  clock : nat -> Z;
  reads : nat
}.

(** The world after one draw from the generator. *)
Definition drawn (w : World) : World :=
  {| tape := tl (tape w); clock := clock w; reads := reads w |}.

(** The world after one reading of the clock. *)
Definition ticked (w : World) : World :=
  {| tape := tape w; clock := clock w; reads := S (reads w) |}.

Inductive outcome (A : Type) : Type :=
| Ok (a : A) (w : World)
| Raise (e : exn).
Arguments Ok {A} a w.
Arguments Raise {A} e.

Definition M (A : Type) : Type := World -> outcome A.

Definition ret {A} (a : A) : M A := fun w => Ok a w.
Definition raise {A} (e : exn) : M A := fun _ => Raise e.
Definition bind {A B} (m : M A) (k : A -> M B) : M B :=
  fun w => match m w with
           | Ok a w' => k a w'
           | Raise e => Raise e
           end.

Notation "x <- m ;; k" := (bind m (fun x => k))
  (at level 100, m at next level, right associativity).

(** The value a computation returns, if it returns. *)
Definition returned {A} (o : outcome A) : option A :=
  match o with Ok a _ => Some a | Raise _ => None end.

(** ** The two library modules the source imports *)

Module random.

(** [Random._randbelow(n)], for [n > 0]: some integer of [0 <= r < n]. *)
Definition _randbelow (n : Z) : M Z :=
  fun w => Ok (hd 0 (tape w) mod n) (drawn w).

(** [random.randrange(start, stop, step)] as CPython defines it. *)
Definition randrange (start stop step : Z) : M Z :=
  let width := stop - start in
  if step =? 1 then
    if 0 <? width then r <- _randbelow width ;; ret (start + r)
    else raise ValueError
  else
    if step =? 0 then raise ValueError
    else
      let n := if 0 <? step then (width + step - 1) / step
               else (width + step + 1) / step in
      if n <=? 0 then raise ValueError
      else r <- _randbelow n ;; ret (start + step * r).

(** [random.randint(a, b)] is [randrange(a, b + 1)]. *)
Definition randint (a b : Z) : M Z := randrange a (b + 1) 1.

(** [random.choice(seq)]. *)
Definition choice {A} (seq : list A) : M A :=
  match seq with
  | [] => raise IndexError
  | x :: _ =>
      i <- _randbelow (Z.of_nat (length seq)) ;;
      ret (nth (Z.to_nat i) seq x)
  end.

End random.

Module time.

(** [int(time.time() * 1000)]: one reading of the wall clock, in
    milliseconds. *)
Definition time_ms : M Z :=
  fun w => Ok (clock w (reads w)) (ticked w).

End time.

(** ** Constants *)

Definition EGG_SEED : Z := 1073741824.

(** ** [getIDBoundarys] *)

Definition getIDBoundarys (tier : Z) : Z * Z :=
  let start := tier * EGG_SEED in
  let end_ := (tier + 1) * EGG_SEED - 1 in
  (Z.max start 255, end_).

(** ** [generateRandomID] *)

Definition generateRandomID (start end_ : Z) (manaphy : bool) : M Z :=
  if manaphy then
    random.randrange (start / 204 * 204) ((end_ / 204 + 1) * 204) 204
  else
    result <- random.randint start end_ ;;
    let result := if result mod 204 =? 0 then result - 1 else result in
    ret (Z.max result 1).

(** ** The species catalog

    [eggTypesData] is an enumeration: iterating it yields its members in
    definition order.  A member's [name] spells the species identifier in
    decimal; the source only ever uses it through [int(member.name)] and
    [int(speciesID)], so it is kept as that integer.  Its [value] is a
    dictionary with a ["name"] and an ["isEgg"] entry, the latter [None] or
    a dictionary carrying ["eggType"]. *)

Record IsEgg : Type := mkIsEgg { eggType : Z }.

Record Species : Type := mkSpecies {
  species_name : string;
  isEgg : option IsEgg
}.

Record Member : Type := mkMember {
  name  : Z;
  value : Species
}.

(** ** Strings: [str.lower] and the [in] operator

    Species names are ASCII; [lower] maps the letters [A-Z] to [a-z] and
    leaves every other character alone. *)

Definition lower_ascii (c : ascii) : ascii :=
  let n := nat_of_ascii c in
  if (65 <=? n)%nat && (n <=? 90)%nat then ascii_of_nat (n + 32) else c.

Fixpoint lower (s : string) : string :=
  match s with
  | EmptyString => EmptyString
  | String c s' => String (lower_ascii c) (lower s')
  end.

(** [sub in s]: [sub] occurs as a contiguous substring of [s]. *)
Fixpoint contains (sub s : string) : bool :=
  String.prefix sub s ||
  match s with
  | EmptyString => false
  | String _ s' => contains sub s'
  end.

(** ** [__getRandomSpeciesForShiny] *)

Definition regionalPrefixes : list string :=
  ["alola_"; "galar_"; "hisui_"; "paldea_"]%string.

Definition paradoxIDs : list Z :=
  [984; 985; 986; 987; 988; 989; 990; 991; 992; 993; 994; 995;
   1005; 1006; 1009; 1010; 1020; 1021; 1022; 1023].

(** Truth value of a list: non-empty. *)
Definition truthy {A} (l : list A) : bool :=
  match l with [] => false | _ :: _ => true end.

(** The test a member has to pass, for the given tier, to be appended to
    [speciesMatch]: the body of the source's [for] loop. *)
Definition speciesMatches (tier : Z) (member : Member) : bool :=
  let species := value member in
  match isEgg species with
  | Some egg =>
      if tier =? 6 then
        existsb (fun substring => contains substring (lower (species_name species)))
                regionalPrefixes
      else if tier =? 7 then
        truthy paradoxIDs && existsb (Z.eqb (name member)) paradoxIDs
      else
        eggType egg =? tier
  | None => false
  end.

(** The loop itself: members are appended in catalog order. *)
Fixpoint collectMatches (tier : Z) (eggTypesData speciesMatch : list Member)
  : list Member :=
  match eggTypesData with
  | [] => speciesMatch
  | member :: rest =>
      collectMatches tier rest
        (if speciesMatches tier member then speciesMatch ++ [member]
         else speciesMatch)
  end.

(** Returns [None], or the pair [(rnd.name, rnd.value["isEgg"]["eggType"])]
    of a member chosen among the matches. *)
Definition __getRandomSpeciesForShiny (tier : Z) (eggTypesData : list Member)
  : M (option (Z * Z)) :=
  let speciesMatch := collectMatches tier eggTypesData [] in
  match speciesMatch with
  | [] => ret None
  | _ :: _ =>
      rnd <- random.choice speciesMatch ;;
      match isEgg (value rnd) with
      | Some egg => ret (Some (name rnd, eggType egg))
      | None => raise TypeError
      end
  end.

(** ** Egg records *)

(** The values an egg dictionary holds. *)
Inductive PyValue : Type :=
| VInt (z : Z)
| VBool (b : bool).

#[global] Instance PyValue_eq_dec : EqDecision PyValue.
Proof. solve_decision. Defined.

Abbreviation Egg := (gmap string PyValue).

(** [a, b = v]: unpacking [None] raises [TypeError]. *)
Definition unpack2 {A B} (v : option (A * B)) : M (A * B) :=
  match v with
  | Some p => ret p
  | None => raise TypeError
  end.

(** ** [constructEggs] *)

Section constructEggs.

Variables (tier gachaType hatchWaveCount : Z).
Variable eggTypesData : list Member.
Variables (isShiny : bool) (variantTier : Z).

(** One pass through the body of the [for] loop: the egg it appends. *)
Definition constructEgg (start end_ : Z) (isManaphy : bool) : M Egg :=
  eggID <- generateRandomID start end_ isManaphy ;;
  timestamp <- time.time_ms ;;
  let egg : Egg :=
    <["timestamp" := VInt timestamp]>
      (<["hatchWaves" := VInt hatchWaveCount]>
         (<["gachaType" := VInt gachaType]>
            (<["id" := VInt eggID]> ∅))) in
  shinyRoll <- random.randint 1 64 ;;
  if isShiny || (shinyRoll =? 1) then
    let egg := <["isShiny" := VBool true]> egg in
    let egg := <["variantTier" := VInt (if isShiny then variantTier - 1 else 0)]> egg in
    let egg := <["sourceType" := VInt 1]> egg in
    found <- __getRandomSpeciesForShiny (tier + 1) eggTypesData ;;
    p <- unpack2 found ;;
    let speciesID := fst p in
    let speciesEggType := snd p in
    (* the guard [if speciesID is not None] is passed by every unpacked
       pair: a member's name is never [None] *)
    let egg := <["species" := VInt speciesID]> egg in
    let egg := <["tier" := VInt (speciesEggType - 1)]> egg in
    ret egg
  else
    let egg := <["isShiny" := VBool false]> egg in
    let egg := <["variantTier" := VInt 0]> egg in
    let egg := <["sourceType" := VInt gachaType]> egg in
    let egg := <["tier" := VInt tier]> egg in
    ret egg.

(** [for _ in range(eggAmount)], with the list built so far. *)
Fixpoint eggLoop (n : nat) (start end_ : Z) (isManaphy : bool)
         (eggs : list Egg) : M (list Egg) :=
  match n with
  | O => ret eggs
  | S n' =>
      egg <- constructEgg start end_ isManaphy ;;
      eggLoop n' start end_ isManaphy (eggs ++ [egg])
  end.

End constructEggs.

Definition constructEggs (tier gachaType hatchWaveCount eggAmount : Z)
           (eggTypesData : list Member) (isShiny : bool) (variantTier : Z)
  : M (list Egg) :=
  let isManaphy := tier =? 4 in
  let '(start, end_) := getIDBoundarys (if isManaphy then 0 else tier) in
  eggLoop tier gachaType hatchWaveCount eggTypesData isShiny variantTier
          (Z.to_nat eggAmount) start end_ isManaphy [].

(** ** Vocabulary of the statements *)

(** [x] lies in the closed interval [(lo, hi)]. *)
Definition inInterval (x : Z) (i : Z * Z) : Prop := fst i <= x <= snd i.

(** [v] is [k * 204] for some [k] other than 0. *)
Definition nonzeroMultipleOf204 (v : Z) : Prop :=
  exists k, k <> 0 /\ v = k * 204.

(** The normal-mode post-processing of a draw. *)
Definition breakCollision (r : Z) : Z :=
  Z.max (if r mod 204 =? 0 then r - 1 else r) 1.

(** [x] aligned down and up to a multiple of 204. *)
Definition alignDown204 (x : Z) : Z := x / 204 * 204.
Definition alignUp204 (x : Z) : Z := (x + 203) / 204 * 204.

(** A member carries egg metadata. *)
Definition hasIsEgg (m : Member) : bool :=
  match isEgg (value m) with Some _ => true | None => false end.

(** The identifier range [constructEggs] settles on. *)
Definition batchRange (tier : Z) : Z * Z :=
  getIDBoundarys (if tier =? 4 then 0 else tier).

(** The timestamp [ts] is a reading of the clock taken between the call's
    entry in world [w] and its return in world [w']. *)
Definition inCallWindow (w w' : World) (ts : Z) : Prop :=
  exists k, (reads w <= k < reads w')%nat /\ ts = clock w k.

(** A clock that never runs backwards. *)
Definition monotoneClock (c : nat -> Z) : Prop :=
  forall i j, (i <= j)%nat -> c i <= c j.

(** The first timestamp of a result, if it has one. *)
Definition firstTimestamp (r : exn + list Egg) : option PyValue :=
  match r with
  | inr (egg :: _) => egg !! "timestamp"
  | _ => None
  end.

(** [sub] occurs in [s] as a contiguous substring. *)
Definition occursIn (sub s : string) : Prop :=
  exists pre post, s = String.append pre (String.append sub post).

(** The regional-form test on a member's name, and the paradox test on its
    key. *)
Definition isRegional (m : Member) : Prop :=
  exists p, In p regionalPrefixes
            /\ occursIn p (lower (species_name (value m))).

Definition isParadox (m : Member) : Prop := In (name m) paradoxIDs.

(** The keys of a non-shiny egg, and those of a shiny one. *)
Definition plainKeys : gset string :=
  {[ "id"; "gachaType"; "hatchWaves"; "timestamp";
     "isShiny"; "variantTier"; "sourceType"; "tier" ]}.

Definition shinyKeys : gset string := plainKeys ∪ {[ "species" ]}.

(** ** Relating two runs *)

(** The caller-visible result of a call: the exception or the value. *)
Definition result {A} (o : outcome A) : exn + A :=
  match o with Ok a _ => inr a | Raise e => inl e end.

(** A result with the ["timestamp"] entry removed from every egg. *)
Definition withoutTimestamps (r : exn + list Egg) : exn + list Egg :=
  match r with
  | inl e => inl e
  | inr eggs => inr (map (delete "timestamp") eggs)
  end.

(** Two outcomes agree: the same exception, or values related by [R] in
    worlds related by [W]. *)
Definition simOutcome {A} (W : World -> World -> Prop) (R : A -> A -> Prop)
           (o1 o2 : outcome A) : Prop :=
  match o1, o2 with
  | Ok a1 w1, Ok a2 w2 => R a1 a2 /\ W w1 w2
  | Raise e1, Raise e2 => e1 = e2
  | _, _ => False
  end.

Definition sim {A} (W : World -> World -> Prop) (R : A -> A -> Prop)
           (m1 m2 : M A) : Prop :=
  forall w1 w2, W w1 w2 -> simOutcome W R (m1 w1) (m2 w2).

(** Two eggs agree on every entry but ["timestamp"], where they hold
    timestamps related by [T]. *)
Definition eggRel (T : Z -> Z -> Prop) (e1 e2 : Egg) : Prop :=
  exists t1 t2 rest,
    T t1 t2
    /\ e1 = <["timestamp" := VInt t1]> rest
    /\ e2 = <["timestamp" := VInt t2]> rest.

(** The two runs read the same timestamps from their clocks. *)
Definition sameReadings (w1 w2 : World) : Prop :=
  forall k, clock w1 (reads w1 + k)%nat = clock w2 (reads w2 + k)%nat.

(** ** Sample inputs *)

Definition exampleCatalog : list Member :=
  [mkMember 1 (mkSpecies "bulbasaur" (Some (mkIsEgg 1)));
   mkMember 2 (mkSpecies "unhatchable" None);
   mkMember 19 (mkSpecies "ALOLA_RATTATA" (Some (mkIsEgg 1)));
   mkMember 150 (mkSpecies "mewtwo" (Some (mkIsEgg 4)));
   mkMember 984 (mkSpecies "great_tusk" (Some (mkIsEgg 3)))].

(** A clock that advances by one millisecond per reading. *)
Definition exampleClock (k : nat) : Z := 1719571200000 + Z.of_nat k.

Definition exampleWorld : World := mkWorld [0; 5; 7] exampleClock O.

(** The same seed under a clock started one minute later. *)
Definition laterWorld : World :=
  mkWorld [0; 5; 7] (fun k => exampleClock k + 60000) O.

(** * Properties *)

(** ** The monad and the random source *)

Lemma bind_Ok {A B} (m : M A) (k : A -> M B) w b w' :
  bind m k w = Ok b w' ->
  exists a w1, m w = Ok a w1 /\ k a w1 = Ok b w'.
Proof.
  unfold bind. destruct (m w) as [a w1|e]; [eauto | discriminate].
Qed.

Lemma bind_eq_Ok {A B} (m : M A) (k : A -> M B) w a w1 :
  m w = Ok a w1 -> bind m k w = k a w1.
Proof. unfold bind. now intros ->. Qed.

Lemma bind_eq_Raise {A B} (m : M A) (k : A -> M B) w e :
  m w = Raise e -> bind m k w = Raise e.
Proof. unfold bind. now intros ->. Qed.

Lemma randint_Ok (a b : Z) (w : World) :
  a <= b ->
  random.randint a b w = Ok (a + hd 0 (tape w) mod (b - a + 1)) (drawn w).
Proof.
  intros Hab. unfold random.randint, random.randrange. simpl.
  destruct (Z.ltb_spec 0 (b + 1 - a)) as [_|Hle]; [|lia].
  unfold bind, random._randbelow, ret. do 3 f_equal. lia.
Qed.

Lemma randint_range (a b r : Z) (w w' : World) :
  random.randint a b w = Ok r w' -> a <= r <= b /\ w' = drawn w.
Proof.
  unfold random.randint, random.randrange. simpl.
  destruct (Z.ltb_spec 0 (b + 1 - a)) as [Hlt|Hle]; [|discriminate].
  unfold bind, random._randbelow, ret. intros [= <- <-].
  pose proof (Z.mod_pos_bound (hd 0 (tape w)) (b + 1 - a) Hlt).
  split; [lia | reflexivity].
Qed.

Lemma randint_empty (a b : Z) (w : World) :
  b < a -> random.randint a b w = Raise ValueError.
Proof.
  intros Hab. unfold random.randint, random.randrange. simpl.
  destruct (Z.ltb_spec 0 (b + 1 - a)) as [Hlt|_]; [lia | reflexivity].
Qed.

(** The number of multiples of 204 the reserved-family draw chooses among. *)
Lemma manaphy_count (start end_ : Z) :
  ((end_ / 204 + 1) * 204 - start / 204 * 204 + 204 - 1) / 204
  = end_ / 204 - start / 204 + 1.
Proof.
  replace ((end_ / 204 + 1) * 204 - start / 204 * 204 + 204 - 1)
    with (203 + (end_ / 204 - start / 204 + 1) * 204) by lia.
  rewrite Z.div_add by lia. reflexivity.
Qed.

Lemma generateRandomID_manaphy_Ok (start end_ : Z) (w : World) :
  start <= end_ ->
  generateRandomID start end_ true w
  = Ok (start / 204 * 204
        + 204 * (hd 0 (tape w) mod (end_ / 204 - start / 204 + 1)))
       (drawn w).
Proof.
  intros Hse. unfold generateRandomID, random.randrange.
  change (204 =? 1) with false. change (204 =? 0) with false.
  change (0 <? 204) with true. cbv iota. rewrite manaphy_count.
  pose proof (Z.div_le_mono start end_ 204 ltac:(lia) Hse).
  destruct (Z.leb_spec (end_ / 204 - start / 204 + 1) 0); [lia|].
  reflexivity.
Qed.

Lemma generateRandomID_normal_Ok (start end_ : Z) (w : World) :
  start <= end_ ->
  let r := start + hd 0 (tape w) mod (end_ - start + 1) in
  generateRandomID start end_ false w
  = Ok (Z.max (if r mod 204 =? 0 then r - 1 else r) 1) (drawn w).
Proof.
  intros Hse r. unfold generateRandomID.
  rewrite (bind_eq_Ok _ _ _ _ _ (randint_Ok start end_ w Hse)). reflexivity.
Qed.

Lemma generateRandomID_world (start end_ : Z) (b : bool) (w w' : World) v :
  generateRandomID start end_ b w = Ok v w' -> w' = drawn w.
Proof.
  unfold generateRandomID. destruct b.
  - unfold random.randrange.
    change (204 =? 1) with false. change (204 =? 0) with false. cbv iota.
    destruct (_ <=? 0); [discriminate|].
    unfold bind, random._randbelow, ret. now intros [= _ <-].
  - intros H. apply bind_Ok in H as (r & w1 & Hr & Hk).
    apply randint_range in Hr as [_ ->]. unfold ret in Hk. now inversion Hk.
Qed.

(** ** Identifier ranges *)

(** C6: for every tier [t >= 0], [getIDBoundarys t] is the pair
    [(max (t * 1073741824) 255, (t + 1) * 1073741824 - 1)], whose start is
    at most its end and at least 255. *)
Theorem getIDBoundarys_spec (t : Z) :
  0 <= t ->
  getIDBoundarys t = (Z.max (t * 1073741824) 255, (t + 1) * 1073741824 - 1)
  /\ fst (getIDBoundarys t) <= snd (getIDBoundarys t)
  /\ 255 <= fst (getIDBoundarys t).
Proof.
  intros Ht. unfold getIDBoundarys, EGG_SEED. cbn [fst snd].
  repeat split; lia.
Qed.

Lemma getIDBoundarys_spec_witness :
  0 <= 2 /\
  getIDBoundarys 2 = (2147483648, 3221225471).
Proof.
  split; [lia|].
  exact (proj1 (getIDBoundarys_spec 2 ltac:(lia))).
Defined.

(** C9: for tiers [1 <= s < t], the interval of tier [t] starts right after
    the end of the interval of tier [t - 1], the intervals of [s] and [t]
    share no identifier, and both start at [tier * EGG_SEED]; only tier 0
    deviates, its start being clamped from 0 up to 255. *)
Theorem getIDBoundarys_contiguous_disjoint (s t : Z) :
  1 <= s -> s < t ->
  snd (getIDBoundarys (t - 1)) + 1 = fst (getIDBoundarys t)
  /\ snd (getIDBoundarys s) < fst (getIDBoundarys t)
  /\ (forall x, ~ (inInterval x (getIDBoundarys s)
                   /\ inInterval x (getIDBoundarys t)))
  /\ fst (getIDBoundarys s) = s * EGG_SEED
  /\ fst (getIDBoundarys t) = t * EGG_SEED
  /\ fst (getIDBoundarys 0) = 255
  /\ fst (getIDBoundarys 0) <> 0 * EGG_SEED
  /\ snd (getIDBoundarys 0) + 1 = fst (getIDBoundarys 1).
Proof.
  intros Hs Hst. unfold inInterval, getIDBoundarys, EGG_SEED. cbn [fst snd].
  repeat split; try lia.
Qed.

Lemma getIDBoundarys_contiguous_disjoint_witness :
  snd (getIDBoundarys 1) + 1 = fst (getIDBoundarys 2)
  /\ snd (getIDBoundarys 1) < fst (getIDBoundarys 2).
Proof.
  pose proof (getIDBoundarys_contiguous_disjoint 1 2 ltac:(lia) ltac:(lia))
    as (H1 & H2 & _).
  exact (conj H1 H2).
Defined.

(** ** Identifier generation *)

Lemma breakCollision_spec (r : Z) :
  1 <= breakCollision r /\ breakCollision r mod 204 <> 0.
Proof.
  unfold breakCollision.
  destruct (Z.eqb_spec (r mod 204) 0) as [H0|Hn0].
  - assert (Hm : (r - 1) mod 204 = 203).
    { rewrite (Z.div_mod r 204) at 1 by lia. rewrite H0.
      replace (204 * (r / 204) + 0 - 1) with (203 + (r / 204 - 1) * 204) by lia.
      rewrite Z.mod_add by lia. reflexivity. }
    destruct (Z.max_spec (r - 1) 1) as [[_ ->]|[Hle ->]];
      [split; [lia | discriminate] | split; [lia | now rewrite Hm]].
  - destruct (Z.max_spec r 1) as [[_ ->]|[Hle ->]];
      [split; [lia | discriminate] | split; [lia | exact Hn0]].
Qed.

Lemma mod204_not_multiple (v : Z) :
  v mod 204 <> 0 -> ~ nonzeroMultipleOf204 v.
Proof.
  intros Hv (k & _ & ->). apply Hv. apply Z.mod_mul. lia.
Qed.

(** C4: for [start <= end_], a normal-mode call returns (it does not
    raise) the value [max (r - 1 if r % 204 == 0 else r) 1] of a draw [r]
    of [start <= r <= end_]; that value is at least 1 and is not a nonzero
    multiple of 204.  Every [r] of the interval is the draw of some random
    source. *)
Theorem generateRandomID_normal_spec (start end_ : Z) (w : World) :
  start <= end_ ->
  (exists r v w',
      generateRandomID start end_ false w = Ok v w'
      /\ start <= r <= end_
      /\ v = Z.max (if r mod 204 =? 0 then r - 1 else r) 1
      /\ 1 <= v
      /\ ~ nonzeroMultipleOf204 v)
  /\ (forall r, start <= r <= end_ ->
        exists w0, returned (generateRandomID start end_ false w0)
                   = Some (Z.max (if r mod 204 =? 0 then r - 1 else r) 1)).
Proof.
  intros Hse. split.
  - pose proof (Z.mod_pos_bound (hd 0 (tape w)) (end_ - start + 1) ltac:(lia)).
    exists (start + hd 0 (tape w) mod (end_ - start + 1)).
    eexists. exists (drawn w).
    split; [apply generateRandomID_normal_Ok; exact Hse|].
    split; [lia|]. split; [reflexivity|].
    match goal with |- 1 <= ?v /\ _ =>
      change v with (breakCollision (start + hd 0 (tape w) mod (end_ - start + 1)))
    end.
    destruct (breakCollision_spec (start + hd 0 (tape w) mod (end_ - start + 1))).
    split; [assumption | now apply mod204_not_multiple].
  - intros r Hr.
    exists (mkWorld [r - start] (fun _ => 0) O).
    rewrite generateRandomID_normal_Ok by exact Hse. cbn [tape hd returned].
    cbv zeta. rewrite (Z.mod_small (r - start) (end_ - start + 1)) by lia.
    replace (start + (r - start)) with r by lia. reflexivity.
Qed.

Lemma generateRandomID_normal_spec_witness :
  200 <= 210 /\
  exists r v w',
    generateRandomID 200 210 false (mkWorld [4] (fun _ => 0) O) = Ok v w'
    /\ 200 <= r <= 210
    /\ v = Z.max (if r mod 204 =? 0 then r - 1 else r) 1
    /\ 1 <= v
    /\ ~ nonzeroMultipleOf204 v.
Proof.
  split; [lia|].
  exact (proj1 (generateRandomID_normal_spec 200 210
                  (mkWorld [4] (fun _ => 0) O) ltac:(lia))).
Defined.

Example generateRandomID_204 :
  returned (generateRandomID 200 210 false (mkWorld [4] (fun _ => 0) O))
  = Some 203.
Proof. reflexivity. Qed.

Example generateRandomID_zero :
  returned (generateRandomID 0 10 false (mkWorld [0] (fun _ => 0) O))
  = Some 1.
Proof. reflexivity. Qed.

(** C5: for [start <= end_], a reserved-family call returns (it does not
    raise) an exact multiple of 204 between [start] aligned down and [end_]
    aligned up to a multiple of 204; it is in fact at most [end_] aligned
    down. *)
Theorem generateRandomID_manaphy_spec (start end_ : Z) (w : World) :
  start <= end_ ->
  exists v w',
    generateRandomID start end_ true w = Ok v w'
    /\ v mod 204 = 0
    /\ alignDown204 start <= v <= alignUp204 end_
    /\ v <= alignDown204 end_.
Proof.
  intros Hse.
  pose proof (Z.div_le_mono start end_ 204 ltac:(lia) Hse) as Hdiv.
  pose proof (Z.div_le_mono end_ (end_ + 203) 204 ltac:(lia) ltac:(lia)) as Hup.
  pose proof (Z.mod_pos_bound (hd 0 (tape w)) (end_ / 204 - start / 204 + 1)
                ltac:(lia)) as Hr.
  eexists. exists (drawn w).
  split; [apply generateRandomID_manaphy_Ok; exact Hse|].
  unfold alignDown204, alignUp204.
  set (r := hd 0 (tape w) mod (end_ / 204 - start / 204 + 1)) in *.
  split.
  - replace (start / 204 * 204 + 204 * r) with ((start / 204 + r) * 204) by lia.
    apply Z.mod_mul. lia.
  - lia.
Qed.

Lemma generateRandomID_manaphy_spec_witness :
  255 <= 1073741823 /\
  exists v w',
    generateRandomID 255 1073741823 true (mkWorld [0] (fun _ => 0) O) = Ok v w'
    /\ v mod 204 = 0
    /\ alignDown204 255 <= v <= alignUp204 1073741823
    /\ v <= alignDown204 1073741823.
Proof.
  split; [lia|].
  exact (generateRandomID_manaphy_spec 255 1073741823
           (mkWorld [0] (fun _ => 0) O) ltac:(lia)).
Defined.

Example generateRandomID_manaphy_204 :
  returned (generateRandomID 255 1073741823 true (mkWorld [0] (fun _ => 0) O))
  = Some 204.
Proof. reflexivity. Qed.

(** ** The shiny species matcher *)

Lemma collectMatches_filter (tier : Z) (eggTypesData acc : list Member) :
  collectMatches tier eggTypesData acc
  = acc ++ List.filter (speciesMatches tier) eggTypesData.
Proof.
  revert acc. induction eggTypesData as [|m rest IH]; intros acc; simpl.
  - now rewrite app_nil_r.
  - rewrite IH. destruct (speciesMatches tier m); [|reflexivity].
    now rewrite <- app_assoc.
Qed.

Lemma choice_Ok {A} (x : A) (l : list A) (w : World) :
  exists y, In y (x :: l) /\ random.choice (x :: l) w = Ok y (drawn w).
Proof.
  unfold random.choice, bind, random._randbelow, ret.
  eexists. split; [|reflexivity].
  apply nth_In.
  pose proof (Z.mod_pos_bound (hd 0 (tape w)) (Z.of_nat (length (x :: l)))
                ltac:(simpl length; lia)).
  lia.
Qed.

Lemma speciesMatches_isEgg (tier : Z) (m : Member) :
  speciesMatches tier m = true -> exists egg, isEgg (value m) = Some egg.
Proof.
  unfold speciesMatches. destruct (isEgg (value m)); [eauto | discriminate].
Qed.

Lemma speciesMatches_default (tier : Z) (m : Member) :
  tier <> 6 -> tier <> 7 ->
  speciesMatches tier m = true
  <-> exists egg, isEgg (value m) = Some egg /\ eggType egg = tier.
Proof.
  intros H6 H7. unfold speciesMatches.
  destruct (Z.eqb_spec tier 6); [contradiction|].
  destruct (Z.eqb_spec tier 7); [contradiction|].
  destruct (isEgg (value m)) as [egg|].
  - rewrite Z.eqb_eq. split; [eauto | now intros (? & [= <-] & ?)].
  - split; [discriminate | now intros (? & ? & _)].
Qed.

(** The two ways the matcher ends: no member matches and it returns [None]
    without touching the random source, or it returns the key and egg type
    of a matching member after one draw. *)
Lemma getRandomSpeciesForShiny_cases (tier : Z) (cat : list Member) (w : World) :
  (List.filter (speciesMatches tier) cat = []
   /\ __getRandomSpeciesForShiny tier cat w = Ok None w)
  \/ (exists m egg,
        In m cat /\ speciesMatches tier m = true
        /\ isEgg (value m) = Some egg
        /\ __getRandomSpeciesForShiny tier cat w
           = Ok (Some (name m, eggType egg)) (drawn w)).
Proof.
  unfold __getRandomSpeciesForShiny. rewrite collectMatches_filter.
  cbn [app]. destruct (List.filter (speciesMatches tier) cat) as [|m0 l] eqn:Hf.
  - left. split; reflexivity.
  - right. destruct (choice_Ok m0 l w) as (m & Hin & Hch).
    rewrite <- Hf in Hin. apply filter_In in Hin as [Hin Hm].
    destruct (speciesMatches_isEgg _ _ Hm) as [egg Hegg].
    exists m, egg. repeat split; try assumption.
    rewrite (bind_eq_Ok _ _ _ _ _ Hch), Hegg. reflexivity.
Qed.

Lemma filter_hasIsEgg (tier : Z) (cat : list Member) :
  List.filter (speciesMatches tier) (List.filter hasIsEgg cat)
  = List.filter (speciesMatches tier) cat.
Proof.
  induction cat as [|m cat IH]; [reflexivity|]. simpl.
  unfold hasIsEgg at 1. destruct (isEgg (value m)) eqn:Hegg; simpl.
  - now rewrite IH.
  - unfold speciesMatches at 2. now rewrite Hegg.
Qed.

(** C8: for a tier [t] other than 6 and 7, the matcher returns (it does not
    raise); a returned pair is the key and egg type of a catalog member
    that has egg metadata with [eggType] equal to [t]; and it returns
    [None] exactly when no catalog member has such metadata.  Under every
    policy a returned pair comes from a member with egg metadata, and
    members without it can be dropped from the catalog without changing
    the outcome. *)
Theorem getRandomSpeciesForShiny_default (t : Z) (cat : list Member) (w : World) :
  t <> 6 -> t <> 7 ->
  (exists r w',
      __getRandomSpeciesForShiny t cat w = Ok r w'
      /\ (forall k e, r = Some (k, e) ->
            exists m, In m cat /\ name m = k
                      /\ isEgg (value m) = Some (mkIsEgg e) /\ e = t)
      /\ (r = None <->
          ~ exists m egg, In m cat /\ isEgg (value m) = Some egg
                          /\ eggType egg = t))
  /\ (forall t' w1 k e w1',
        __getRandomSpeciesForShiny t' cat w1 = Ok (Some (k, e)) w1' ->
        exists m, In m cat /\ name m = k
                  /\ isEgg (value m) = Some (mkIsEgg e))
  /\ (forall t' w1,
        __getRandomSpeciesForShiny t' (List.filter hasIsEgg cat) w1
        = __getRandomSpeciesForShiny t' cat w1).
Proof.
  intros H6 H7. repeat split.
  - destruct (getRandomSpeciesForShiny_cases t cat w)
      as [[Hf Hr]|(m & egg & Hin & Hm & Hegg & Hr)].
    + exists None, w. split; [exact Hr|]. split; [discriminate|].
      split; [|reflexivity]. intros _ (m & egg & Hin & Hegg & Ht).
      assert (Hm : In m (List.filter (speciesMatches t) cat)).
      { apply filter_In. split; [exact Hin|].
        apply speciesMatches_default; eauto. }
      rewrite Hf in Hm. destruct Hm.
    + exists (Some (name m, eggType egg)), (drawn w).
      apply speciesMatches_default in Hm as (egg' & Hegg' & Ht); try assumption.
      rewrite Hegg in Hegg'. injection Hegg' as <-.
      split; [exact Hr|]. split.
      * intros k e [= <- <-]. exists m. destruct egg as [e]. now repeat split.
      * split; [discriminate|]. intros Hno. exfalso. apply Hno. eauto.
  - intros t' w1 k e w1' Hr.
    destruct (getRandomSpeciesForShiny_cases t' cat w1)
      as [[_ Hr']|(m & egg & Hin & _ & Hegg & Hr')];
      rewrite Hr' in Hr; [discriminate|].
    injection Hr as <- <- _. exists m. destruct egg as [e]. now repeat split.
  - intros t' w1. unfold __getRandomSpeciesForShiny.
    rewrite !collectMatches_filter, filter_hasIsEgg. reflexivity.
Qed.

(** ** One egg *)

Section constructEgg_facts.

Variables (tier gachaType hatchWaveCount : Z).
Variable eggTypesData : list Member.
Variables (isShiny : bool) (variantTier : Z).
Variables (start end_ : Z) (isManaphy : bool).

Local Abbreviation constructEgg' :=
  (constructEgg tier gachaType hatchWaveCount eggTypesData isShiny
                variantTier start end_ isManaphy).

(** What a returned egg looks like, and what the pass did to the world:
    one draw for the identifier, one reading of the clock, one draw for
    the shiny roll and, for a shiny egg, one for the species. *)
Lemma constructEgg_Ok_inv (w w' : World) (egg : Egg) :
  constructEgg' w = Ok egg w' ->
  exists eggID,
    generateRandomID start end_ isManaphy w = Ok eggID (drawn w)
    /\ clock w' = clock w
    /\ reads w' = S (reads w)
    /\ egg !! "id" = Some (VInt eggID)
    /\ egg !! "gachaType" = Some (VInt gachaType)
    /\ egg !! "hatchWaves" = Some (VInt hatchWaveCount)
    /\ egg !! "timestamp" = Some (VInt (clock w (reads w)))
    /\ ((egg !! "isShiny" = Some (VBool true)
         /\ egg !! "variantTier"
            = Some (VInt (if isShiny then variantTier - 1 else 0))
         /\ egg !! "sourceType" = Some (VInt 1)
         /\ exists m meta,
             In m eggTypesData
             /\ speciesMatches (tier + 1) m = true
             /\ isEgg (value m) = Some meta
             /\ egg !! "species" = Some (VInt (name m))
             /\ egg !! "tier" = Some (VInt (eggType meta - 1)))
        \/ (isShiny = false
            /\ egg !! "isShiny" = Some (VBool false)
            /\ egg !! "variantTier" = Some (VInt 0)
            /\ egg !! "sourceType" = Some (VInt gachaType)
            /\ egg !! "tier" = Some (VInt tier)
            /\ egg !! "species" = None)).
Proof.
  unfold constructEgg. intros H.
  apply bind_Ok in H as (eggID & w1 & Hid & H).
  pose proof (generateRandomID_world _ _ _ _ _ _ Hid) as ->.
  apply bind_Ok in H as (ts & w2 & Hts & H).
  injection Hts as <- <-.
  apply bind_Ok in H as (roll & w3 & Hroll & H).
  apply randint_range in Hroll as [_ ->].
  exists eggID. split; [exact Hid|].
  destruct (isShiny || (roll =? 1)) eqn:Hshiny.
  - apply bind_Ok in H as (found & w4 & Hfound & H).
    apply bind_Ok in H as ([sid sty] & w5 & Hun & H).
    destruct found as [p|]; [|discriminate].
    injection Hun as -> <-. injection H as <- <-.
    destruct (getRandomSpeciesForShiny_cases (tier + 1) eggTypesData
                (drawn (ticked (drawn w))))
      as [[_ Hr]|(m & meta & Hin & Hm & Hmeta & Hr)];
      rewrite Hr in Hfound; [discriminate|].
    injection Hfound as <- <- <-.
    repeat split; try reflexivity.
    left. repeat split; try reflexivity.
    exists m, meta. repeat split; try assumption; reflexivity.
  - injection H as <- <-.
    apply orb_false_iff in Hshiny as [-> _].
    repeat split; try reflexivity.
    right. repeat split; reflexivity.
Qed.

(** With a forced shiny and no matching member, the pass raises. *)
Lemma constructEgg_no_match (w : World) :
  start <= end_ ->
  isShiny = true ->
  (forall m, In m eggTypesData -> speciesMatches (tier + 1) m = false) ->
  constructEgg' w = Raise TypeError.
Proof.
  intros Hse -> Hno. unfold constructEgg.
  assert (Hid : exists eggID,
             generateRandomID start end_ isManaphy w = Ok eggID (drawn w)).
  { destruct isManaphy.
    - eexists. apply generateRandomID_manaphy_Ok. exact Hse.
    - eexists. apply generateRandomID_normal_Ok. exact Hse. }
  destruct Hid as [eggID Hid].
  rewrite (bind_eq_Ok _ _ _ _ _ Hid).
  rewrite (bind_eq_Ok _ _ _ (clock w (reads w)) (ticked (drawn w)))
    by reflexivity.
  rewrite (bind_eq_Ok _ _ _ _ _
             (randint_Ok 1 64 (ticked (drawn w)) ltac:(lia))).
  cbn [orb].
  destruct (getRandomSpeciesForShiny_cases (tier + 1) eggTypesData
              (drawn (ticked (drawn w))))
    as [[_ Hr]|(m & meta & Hin & Hm & _)].
  - rewrite (bind_eq_Ok _ _ _ _ _ Hr). reflexivity.
  - rewrite (Hno m Hin) in Hm. discriminate.
Qed.

Local Abbreviation eggLoop' :=
  (eggLoop tier gachaType hatchWaveCount eggTypesData isShiny variantTier).

(** The loop appends one egg per pass; each comes from a pass started
    under the same clock, at the reading the loop had reached then. *)
Lemma eggLoop_Ok_inv (n : nat) :
  forall (eggs eggs' : list Egg) (w w' : World),
    eggLoop' n start end_ isManaphy eggs w = Ok eggs' w' ->
    clock w' = clock w
    /\ reads w' = (reads w + n)%nat
    /\ exists new,
        eggs' = eggs ++ new
        /\ length new = n
        /\ Forall (fun egg =>
                     exists wi wi',
                       constructEgg' wi = Ok egg wi'
                       /\ clock wi = clock w
                       /\ (reads w <= reads wi < reads w + n)%nat) new.
Proof.
  induction n as [|n IH]; intros eggs eggs' w w' H; simpl in H.
  - injection H as <- <-. repeat split; [lia|].
    exists []. now rewrite app_nil_r.
  - apply bind_Ok in H as (egg & w1 & Hegg & H).
    destruct (constructEgg_Ok_inv _ _ _ Hegg) as (_ & _ & Hc & Hr & _).
    apply IH in H as (Hc' & Hr' & new & -> & Hlen & Hall).
    split; [congruence|]. split; [lia|].
    exists (egg :: new). split; [now rewrite <- app_assoc|].
    split; [simpl; lia|]. constructor.
    + exists w, w1. split; [exact Hegg|]. split; [reflexivity | lia].
    + eapply Forall_impl; [exact Hall|].
      intros e (wi & wi' & He & Hci & Hri).
      exists wi, wi'. split; [exact He|]. split; [congruence | lia].
Qed.

(** The first pass that raises ends the loop. *)
Lemma eggLoop_Raise (n : nat) (eggs : list Egg) (w : World) (e : exn) :
  constructEgg' w = Raise e ->
  eggLoop' (S n) start end_ isManaphy eggs w = Raise e.
Proof. intros H. simpl. now rewrite (bind_eq_Raise _ _ _ _ H). Qed.

End constructEgg_facts.

(** ** A batch of eggs *)

Lemma batchRange_ordered (tier : Z) :
  0 <= tier -> fst (batchRange tier) <= snd (batchRange tier).
Proof.
  intros Ht. unfold batchRange.
  destruct (tier =? 4); apply getIDBoundarys_spec; lia.
Qed.

Lemma constructEggs_unfold tier gachaType hatchWaveCount eggAmount
      eggTypesData isShiny variantTier :
  constructEggs tier gachaType hatchWaveCount eggAmount eggTypesData
                isShiny variantTier
  = eggLoop tier gachaType hatchWaveCount eggTypesData isShiny variantTier
            (Z.to_nat eggAmount)
            (fst (batchRange tier)) (snd (batchRange tier)) (tier =? 4) [].
Proof. reflexivity. Qed.

(** A returned batch has [eggAmount] eggs (none for a negative amount),
    each the result of one pass of the loop body under the caller's clock,
    at a reading taken during the call. *)
Lemma constructEggs_Ok_inv tier gachaType hatchWaveCount eggAmount
      eggTypesData isShiny variantTier (w w' : World) (eggs : list Egg) :
  constructEggs tier gachaType hatchWaveCount eggAmount eggTypesData
                isShiny variantTier w = Ok eggs w' ->
  clock w' = clock w
  /\ length eggs = Z.to_nat eggAmount
  /\ Forall (fun egg =>
               exists wi wi',
                 constructEgg tier gachaType hatchWaveCount eggTypesData
                              isShiny variantTier
                              (fst (batchRange tier)) (snd (batchRange tier))
                              (tier =? 4) wi = Ok egg wi'
                 /\ clock wi = clock w
                 /\ (reads w <= reads wi < reads w')%nat) eggs.
Proof.
  rewrite constructEggs_unfold. intros H.
  apply eggLoop_Ok_inv in H as (Hc & Hr & new & -> & Hlen & Hall).
  cbn [app]. rewrite Hr. repeat split; assumption.
Qed.

(** C7: in a batch returned by a force-shiny call with variant tier
    [variantTier], every egg has [isShiny = True], [variantTier] equal to
    the caller's value less one (2 for a caller's 3), [sourceType = 1], and
    a timestamp read from the clock during the call; under a clock that
    never runs backwards that timestamp lies between any reading taken
    before the call and any taken after it. *)
Theorem constructEggs_forced_shiny
        (tier gachaType hatchWaveCount eggAmount : Z)
        (eggTypesData : list Member) (variantTier : Z)
        (w w' : World) (eggs : list Egg) :
  constructEggs tier gachaType hatchWaveCount eggAmount eggTypesData
                true variantTier w = Ok eggs w' ->
  Forall (fun egg =>
            egg !! "isShiny" = Some (VBool true)
            /\ egg !! "variantTier" = Some (VInt (variantTier - 1))
            /\ (variantTier = 3 -> egg !! "variantTier" = Some (VInt 2))
            /\ egg !! "sourceType" = Some (VInt 1)
            /\ exists ts,
                egg !! "timestamp" = Some (VInt ts)
                /\ inCallWindow w w' ts
                /\ (monotoneClock (clock w) ->
                    forall before after,
                      (before <= reads w)%nat -> (reads w' <= after)%nat ->
                      clock w before <= ts <= clock w after)) eggs.
Proof.
  intros H. apply constructEggs_Ok_inv in H as (_ & _ & Hall).
  eapply Forall_impl; [exact Hall|].
  intros egg (wi & wi' & Hegg & Hc & Hr).
  apply constructEgg_Ok_inv in Hegg
    as (_ & _ & _ & _ & _ & _ & _ & Hts & [Hs|Hn]).
  - destruct Hs as (Hshiny & Hvar & Hsrc & _).
    repeat split; try assumption.
    + intros ->. exact Hvar.
    + exists (clock wi (reads wi)). split; [exact Hts|]. rewrite Hc. split.
      * exists (reads wi). split; [lia | reflexivity].
      * intros Hmono before after Hb Ha.
        split; apply Hmono; lia.
  - destruct Hn as [Hfalse _]. discriminate.
Qed.

(** C10: in a returned batch every egg with [isShiny = True] carries the
    key of a catalog member matching [tier + 1] as its [species] and that
    member's [eggType] less one as its [tier]; when no catalog member
    matches, a returned batch holds no shiny egg at all. *)
Theorem constructEggs_shiny_has_species
        (tier gachaType hatchWaveCount eggAmount : Z)
        (eggTypesData : list Member) (isShiny : bool) (variantTier : Z)
        (w w' : World) (eggs : list Egg) :
  constructEggs tier gachaType hatchWaveCount eggAmount eggTypesData
                isShiny variantTier w = Ok eggs w' ->
  Forall (fun egg =>
            egg !! "isShiny" = Some (VBool true) ->
            exists m meta,
              In m eggTypesData
              /\ speciesMatches (tier + 1) m = true
              /\ isEgg (value m) = Some meta
              /\ egg !! "species" = Some (VInt (name m))
              /\ egg !! "tier" = Some (VInt (eggType meta - 1))) eggs
  /\ ((forall m, In m eggTypesData -> speciesMatches (tier + 1) m = false) ->
      Forall (fun egg => egg !! "isShiny" = Some (VBool false)
                         /\ egg !! "species" = None) eggs
      /\ (isShiny = true -> eggs = [])).
Proof.
  intros H. apply constructEggs_Ok_inv in H as (_ & Hlen & Hall). split.
  - eapply Forall_impl; [exact Hall|].
    intros egg (wi & wi' & Hegg & _) Hshiny.
    apply constructEgg_Ok_inv in Hegg
      as (_ & _ & _ & _ & _ & _ & _ & _ & [Hs|Hn]).
    + destruct Hs as (_ & _ & _ & Hm). exact Hm.
    + destruct Hn as (_ & Hfalse & _). congruence.
  - intros Hno.
    assert (Hall' : Forall (fun egg => isShiny = false
                              /\ egg !! "isShiny" = Some (VBool false)
                              /\ egg !! "species" = None) eggs).
    { eapply Forall_impl; [exact Hall|].
      intros egg (wi & wi' & Hegg & _).
      apply constructEgg_Ok_inv in Hegg
        as (_ & _ & _ & _ & _ & _ & _ & _ & [Hs|Hn]).
      - destruct Hs as (_ & _ & _ & m & meta & Hin & Hm & _).
        rewrite (Hno m Hin) in Hm. discriminate.
      - destruct Hn as (Hsh & Hfalse & _ & _ & _ & Hsp). auto. }
    split.
    + eapply Forall_impl; [exact Hall'|]. intros egg (_ & ? & ?). auto.
    + intros ->. destruct Hall' as [|egg0 rest [Hsh _] _];
        [reflexivity | discriminate].
Qed.

(** C1: a force-shiny call for a tier [>= 0] with at least one egg to make
    and no catalog member matching [tier + 1] does not return a list: the
    first pass raises [TypeError] when it unpacks the matcher's [None]. *)
Theorem constructEggs_no_match_raises
        (tier gachaType hatchWaveCount eggAmount : Z)
        (eggTypesData : list Member) (variantTier : Z) (w : World) :
  0 <= tier -> 0 < eggAmount ->
  (forall m, In m eggTypesData -> speciesMatches (tier + 1) m = false) ->
  constructEggs tier gachaType hatchWaveCount eggAmount eggTypesData
                true variantTier w = Raise TypeError.
Proof.
  intros Ht Hn Hno. rewrite constructEggs_unfold.
  destruct (Z.to_nat eggAmount) as [|n] eqn:Hnat; [lia|].
  apply eggLoop_Raise.
  apply constructEgg_no_match;
    [apply batchRange_ordered; exact Ht | reflexivity | exact Hno].
Qed.

(** ** Two runs from the same seed *)

Section Simulation.

(** [W] relates the worlds of the two runs, [T] the timestamps they
    read. *)
Variable W : World -> World -> Prop.
Variable T : Z -> Z -> Prop.
Hypothesis W_tape : forall w1 w2, W w1 w2 -> tape w1 = tape w2.
Hypothesis W_drawn : forall w1 w2, W w1 w2 -> W (drawn w1) (drawn w2).
Hypothesis W_ticked : forall w1 w2, W w1 w2 -> W (ticked w1) (ticked w2).
Hypothesis W_clock :
  forall w1 w2, W w1 w2 -> T (clock w1 (reads w1)) (clock w2 (reads w2)).

Lemma sim_ret {A} (R : A -> A -> Prop) (a1 a2 : A) :
  R a1 a2 -> sim W R (ret a1) (ret a2).
Proof. intros HR w1 w2 HW. simpl. auto. Qed.

Lemma sim_raise {A} (R : A -> A -> Prop) (e : exn) :
  sim W R (raise e) (raise e).
Proof. intros w1 w2 HW. reflexivity. Qed.

Lemma sim_bind {A B} (R : A -> A -> Prop) (S : B -> B -> Prop)
      (m1 m2 : M A) (k1 k2 : A -> M B) :
  sim W R m1 m2 ->
  (forall a1 a2, R a1 a2 -> sim W S (k1 a1) (k2 a2)) ->
  sim W S (bind m1 k1) (bind m2 k2).
Proof.
  intros Hm Hk w1 w2 HW. specialize (Hm w1 w2 HW). unfold bind.
  destruct (m1 w1) as [a1 w1'|e1], (m2 w2) as [a2 w2'|e2];
    simpl in Hm; try contradiction.
  - destruct Hm as [HR HW']. now apply Hk.
  - exact Hm.
Qed.

Lemma sim_randbelow (n : Z) :
  sim W eq (random._randbelow n) (random._randbelow n).
Proof.
  intros w1 w2 HW. simpl. rewrite (W_tape _ _ HW). auto.
Qed.

Lemma sim_randrange (start stop step : Z) :
  sim W eq (random.randrange start stop step)
           (random.randrange start stop step).
Proof.
  unfold random.randrange.
  repeat match goal with
         | |- context [if ?b then _ else _] => destruct b
         end;
    try apply sim_raise;
    (eapply sim_bind; [apply sim_randbelow|]);
    intros r ? <-; now apply sim_ret.
Qed.

Lemma sim_choice {A} (seq : list A) :
  sim W eq (random.choice seq) (random.choice seq).
Proof.
  destruct seq as [|x l]; [apply sim_raise|].
  unfold random.choice.
  eapply sim_bind; [apply sim_randbelow|].
  intros i ? <-. now apply sim_ret.
Qed.

Lemma sim_time_ms : sim W T time.time_ms time.time_ms.
Proof. intros w1 w2 HW. simpl. auto. Qed.

Lemma sim_generateRandomID (start end_ : Z) (manaphy : bool) :
  sim W eq (generateRandomID start end_ manaphy)
           (generateRandomID start end_ manaphy).
Proof.
  unfold generateRandomID. destruct manaphy; [apply sim_randrange|].
  eapply sim_bind; [apply sim_randrange|].
  intros r ? <-. now apply sim_ret.
Qed.

Lemma sim_getRandomSpeciesForShiny (tier : Z) (cat : list Member) :
  sim W eq (__getRandomSpeciesForShiny tier cat)
           (__getRandomSpeciesForShiny tier cat).
Proof.
  unfold __getRandomSpeciesForShiny.
  destruct (collectMatches tier cat []) as [|m l]; [now apply sim_ret|].
  eapply sim_bind; [apply sim_choice|].
  intros rnd ? <-.
  destruct (isEgg (value rnd)); [now apply sim_ret | apply sim_raise].
Qed.

Lemma sim_constructEgg tier gachaType hatchWaveCount eggTypesData
      isShiny variantTier start end_ isManaphy :
  sim W (eggRel T)
      (constructEgg tier gachaType hatchWaveCount eggTypesData isShiny
                    variantTier start end_ isManaphy)
      (constructEgg tier gachaType hatchWaveCount eggTypesData isShiny
                    variantTier start end_ isManaphy).
Proof.
  unfold constructEgg.
  eapply sim_bind; [apply sim_generateRandomID|]. intros eggID ? <-.
  eapply sim_bind; [apply sim_time_ms|]. intros t1 t2 Ht.
  eapply sim_bind; [apply sim_randrange|]. intros roll ? <-.
  destruct (isShiny || (roll =? 1)).
  - eapply sim_bind; [apply sim_getRandomSpeciesForShiny|].
    intros found ? <-.
    eapply sim_bind with (R := eq).
    { destruct found; [now apply sim_ret | apply sim_raise]. }
    intros p ? <-. apply sim_ret.
    match goal with
    | |- eggRel _ ?e1 _ => exists t1, t2, (delete "timestamp" e1)
    end.
    split; [exact Ht|]. split; reflexivity.
  - apply sim_ret.
    match goal with
    | |- eggRel _ ?e1 _ => exists t1, t2, (delete "timestamp" e1)
    end.
    split; [exact Ht|]. split; reflexivity.
Qed.

Lemma sim_eggLoop tier gachaType hatchWaveCount eggTypesData
      isShiny variantTier start end_ isManaphy (n : nat) :
  forall eggs1 eggs2,
    Forall2 (eggRel T) eggs1 eggs2 ->
    sim W (Forall2 (eggRel T))
        (eggLoop tier gachaType hatchWaveCount eggTypesData isShiny
                 variantTier n start end_ isManaphy eggs1)
        (eggLoop tier gachaType hatchWaveCount eggTypesData isShiny
                 variantTier n start end_ isManaphy eggs2).
Proof.
  induction n as [|n IH]; intros eggs1 eggs2 Heggs; simpl.
  - now apply sim_ret.
  - eapply sim_bind; [apply sim_constructEgg|].
    intros egg1 egg2 Hegg. apply IH.
    apply Forall2_app; [exact Heggs | now constructor].
Qed.

Lemma sim_constructEggs tier gachaType hatchWaveCount eggAmount
      eggTypesData isShiny variantTier :
  sim W (Forall2 (eggRel T))
      (constructEggs tier gachaType hatchWaveCount eggAmount eggTypesData
                     isShiny variantTier)
      (constructEggs tier gachaType hatchWaveCount eggAmount eggTypesData
                     isShiny variantTier).
Proof.
  rewrite constructEggs_unfold. apply sim_eggLoop. constructor.
Qed.

End Simulation.

Lemma eggRel_any (l1 l2 : list Egg) :
  Forall2 (eggRel (fun _ _ => True)) l1 l2 ->
  map (delete "timestamp") l1 = map (delete "timestamp") l2.
Proof.
  induction 1 as [|e1 e2 l1 l2 (t1 & t2 & rest & _ & -> & ->) _ IH];
    [reflexivity|].
  simpl. rewrite IH, !delete_insert_eq. reflexivity.
Qed.

Lemma eggRel_eq (l1 l2 : list Egg) :
  Forall2 (eggRel eq) l1 l2 -> l1 = l2.
Proof.
  induction 1 as [|e1 e2 l1 l2 (t1 & t2 & rest & <- & -> & ->) _ IH];
    [reflexivity|].
  now rewrite IH.
Qed.

Lemma sameReadings_ticked (w1 w2 : World) :
  sameReadings w1 w2 -> sameReadings (ticked w1) (ticked w2).
Proof.
  intros H k. simpl. specialize (H (S k)).
  now rewrite !Nat.add_succ_r in H.
Qed.

Lemma sameReadings_now (w1 w2 : World) :
  sameReadings w1 w2 -> clock w1 (reads w1) = clock w2 (reads w2).
Proof. intros H. specialize (H O). now rewrite !Nat.add_0_r in H. Qed.

(** C3, as the code has it: two calls with the same arguments on the same
    seed raise the same exception or return lists that agree on every
    entry of every egg other than ["timestamp"]; they agree on the
    timestamps too when the clock gives both calls the same readings. *)
Theorem constructEggs_seeded
        (tier gachaType hatchWaveCount eggAmount : Z)
        (eggTypesData : list Member) (isShiny : bool) (variantTier : Z)
        (w1 w2 : World) :
  tape w1 = tape w2 ->
  withoutTimestamps
    (result (constructEggs tier gachaType hatchWaveCount eggAmount
                           eggTypesData isShiny variantTier w1))
  = withoutTimestamps
      (result (constructEggs tier gachaType hatchWaveCount eggAmount
                             eggTypesData isShiny variantTier w2))
  /\ (sameReadings w1 w2 ->
      result (constructEggs tier gachaType hatchWaveCount eggAmount
                            eggTypesData isShiny variantTier w1)
      = result (constructEggs tier gachaType hatchWaveCount eggAmount
                              eggTypesData isShiny variantTier w2)).
Proof.
  intros Htape. split.
  - assert (H : sim (fun a b => tape a = tape b) (Forall2 (eggRel (fun _ _ => True)))
                    (constructEggs tier gachaType hatchWaveCount eggAmount
                                   eggTypesData isShiny variantTier)
                    (constructEggs tier gachaType hatchWaveCount eggAmount
                                   eggTypesData isShiny variantTier)).
    { apply sim_constructEggs; try (intros a b Hab; simpl; congruence); auto. }
    specialize (H w1 w2 Htape).
    destruct (constructEggs _ _ _ _ _ _ _ w1), (constructEggs _ _ _ _ _ _ _ w2);
      simpl in H |- *; try contradiction.
    + destruct H as [H _]. now rewrite (eggRel_any _ _ H).
    + now subst.
  - intros Hclock.
    assert (H : sim (fun a b => tape a = tape b /\ sameReadings a b)
                    (Forall2 (eggRel eq))
                    (constructEggs tier gachaType hatchWaveCount eggAmount
                                   eggTypesData isShiny variantTier)
                    (constructEggs tier gachaType hatchWaveCount eggAmount
                                   eggTypesData isShiny variantTier)).
    { apply sim_constructEggs.
      - now intros a b [Hab _].
      - intros a b [Hab Hr]. split; [simpl; congruence | exact Hr].
      - intros a b [Hab Hr]. split; [exact Hab | now apply sameReadings_ticked].
      - intros a b [_ Hr]. now apply sameReadings_now. }
    specialize (H w1 w2 (conj Htape Hclock)).
    destruct (constructEggs _ _ _ _ _ _ _ w1), (constructEggs _ _ _ _ _ _ _ w2);
      simpl in H |- *; try contradiction.
    + destruct H as [H _]. now rewrite (eggRel_eq _ _ H).
    + now subst.
Qed.

Lemma constructEggs_seeded_witness :
  tape exampleWorld = tape laterWorld
  /\ withoutTimestamps
       (result (constructEggs 0 2 3 2 exampleCatalog true 3 exampleWorld))
     = withoutTimestamps
         (result (constructEggs 0 2 3 2 exampleCatalog true 3 laterWorld)).
Proof.
  split; [reflexivity|].
  exact (proj1 (constructEggs_seeded 0 2 3 2 exampleCatalog true 3
                  exampleWorld laterWorld eq_refl)).
Defined.

(** C3 as stated fails: the same seed and the same arguments under two
    clocks give lists that differ in their timestamps. *)
Lemma constructEggs_seed_does_not_fix_timestamps :
  tape exampleWorld = tape laterWorld
  /\ result (constructEggs 0 2 3 2 exampleCatalog true 3 exampleWorld)
     <> result (constructEggs 0 2 3 2 exampleCatalog true 3 laterWorld).
Proof.
  split; [reflexivity|].
  intros H. apply (f_equal firstTimestamp) in H.
  vm_compute in H. discriminate H.
Qed.

(** ** Reserved-family batches *)

(** What does hold of a tier-4 batch: every identifier is a multiple of 204
    between 204 and 1073741760, the tier-0 interval with its start aligned
    down from 255. *)
Lemma constructEggs_manaphy_ids
      (gachaType hatchWaveCount eggAmount : Z) (eggTypesData : list Member)
      (isShiny : bool) (variantTier : Z) (w w' : World) (eggs : list Egg) :
  constructEggs 4 gachaType hatchWaveCount eggAmount eggTypesData
                isShiny variantTier w = Ok eggs w' ->
  Forall (fun egg =>
            exists id, egg !! "id" = Some (VInt id)
                       /\ id mod 204 = 0
                       /\ 204 <= id <= 1073741760) eggs.
Proof.
  intros H. apply constructEggs_Ok_inv in H as (_ & _ & Hall).
  eapply Forall_impl; [exact Hall|].
  intros egg (wi & wi' & Hegg & _).
  apply constructEgg_Ok_inv in Hegg as (id & Hid & _ & _ & Hlook & _).
  exists id. split; [exact Hlook|].
  change (fst (batchRange 4)) with 255 in Hid.
  change (snd (batchRange 4)) with 1073741823 in Hid.
  change (4 =? 4) with true in Hid.
  destruct (generateRandomID_manaphy_spec 255 1073741823 wi ltac:(lia))
    as (v & wv & Hv & Hmod & [Hlo _] & Hhi).
  rewrite Hv in Hid. injection Hid as -> _.
  split; [exact Hmod|].
  change (alignDown204 255) with 204 in Hlo.
  change (alignDown204 1073741823) with 1073741760 in Hhi. lia.
Qed.

(** C2: the tier-4 call on the sample seed returns one non-shiny egg whose
    identifier is 204, below the interval of tier 0. *)
Theorem constructEggs_manaphy_below_range :
  exists egg w',
    constructEggs 4 2 3 1 exampleCatalog false 0 exampleWorld = Ok [egg] w'
    /\ egg !! "isShiny" = Some (VBool false)
    /\ egg !! "id" = Some (VInt 204)
    /\ getIDBoundarys 0 = (255, 1073741823)
    /\ ~ inInterval 204 (getIDBoundarys 0).
Proof.
  eexists. eexists. split; [reflexivity|].
  repeat split; try reflexivity.
  unfold inInterval. cbn. lia.
Qed.

(** ** Instances *)

Lemma getRandomSpeciesForShiny_default_witness :
  1 <> 6 /\ 1 <> 7 /\
  exists r w',
    __getRandomSpeciesForShiny 1 exampleCatalog exampleWorld = Ok r w'
    /\ (forall k e, r = Some (k, e) ->
          exists m, In m exampleCatalog /\ name m = k
                    /\ isEgg (value m) = Some (mkIsEgg e) /\ e = 1)
    /\ (r = None <->
        ~ exists m egg, In m exampleCatalog /\ isEgg (value m) = Some egg
                        /\ eggType egg = 1).
Proof.
  split; [lia|]. split; [lia|].
  exact (proj1 (getRandomSpeciesForShiny_default 1 exampleCatalog exampleWorld
                  ltac:(lia) ltac:(lia))).
Defined.

Example getRandomSpeciesForShiny_regional :
  returned (__getRandomSpeciesForShiny 6 exampleCatalog exampleWorld)
  = Some (Some (19, 1)).
Proof. reflexivity. Qed.

Example getRandomSpeciesForShiny_paradox :
  returned (__getRandomSpeciesForShiny 7 exampleCatalog exampleWorld)
  = Some (Some (984, 3)).
Proof. reflexivity. Qed.

Example getRandomSpeciesForShiny_absent :
  returned (__getRandomSpeciesForShiny 2 exampleCatalog exampleWorld)
  = Some None.
Proof. reflexivity. Qed.

Lemma constructEggs_forced_shiny_witness :
  exists eggs w',
    constructEggs 0 2 3 2 exampleCatalog true 3 exampleWorld = Ok eggs w'
    /\ length eggs = 2%nat
    /\ Forall (fun egg =>
                 egg !! "isShiny" = Some (VBool true)
                 /\ egg !! "variantTier" = Some (VInt 2)
                 /\ egg !! "sourceType" = Some (VInt 1)) eggs.
Proof.
  eexists. eexists. split; [reflexivity|]. split; [reflexivity|].
  eapply Forall_impl;
    [refine (constructEggs_forced_shiny 0 2 3 2 exampleCatalog 3
               exampleWorld _ _ _); reflexivity|].
  intros egg (Hs & _ & Hv & Hsrc & _).
  split; [exact Hs|]. split; [exact (Hv eq_refl) | exact Hsrc].
Defined.

Lemma constructEggs_shiny_has_species_witness :
  exists eggs w',
    constructEggs 0 2 3 1 exampleCatalog false 0
                  (mkWorld [0; 0; 1] exampleClock O) = Ok eggs w'
    /\ Forall (fun egg =>
                 egg !! "isShiny" = Some (VBool true) ->
                 exists m meta,
                   In m exampleCatalog
                   /\ speciesMatches (0 + 1) m = true
                   /\ isEgg (value m) = Some meta
                   /\ egg !! "species" = Some (VInt (name m))
                   /\ egg !! "tier" = Some (VInt (eggType meta - 1))) eggs.
Proof.
  eexists. eexists. split; [reflexivity|].
  refine (proj1 (constructEggs_shiny_has_species 0 2 3 1 exampleCatalog false 0
                   (mkWorld [0; 0; 1] exampleClock O) _ _ _)).
  reflexivity.
Defined.

Example constructEggs_rolled_shiny :
  option_map (map (fun egg : Egg => (egg !! "isShiny", egg !! "species",
                                      egg !! "tier", egg !! "variantTier")))
             (returned (constructEggs 0 2 3 1 exampleCatalog false 0
                                      (mkWorld [0; 0; 1] exampleClock O)))
  = Some [(Some (VBool true), Some (VInt 19), Some (VInt 0), Some (VInt 0))].
Proof. reflexivity. Qed.

Lemma constructEggs_no_match_raises_witness :
  0 <= 0 /\ 0 < 1
  /\ (forall m, In m [mkMember 2 (mkSpecies "unhatchable" None)] ->
                speciesMatches (0 + 1) m = false)
  /\ constructEggs 0 2 3 1 [mkMember 2 (mkSpecies "unhatchable" None)]
                   true 1 exampleWorld = Raise TypeError.
Proof.
  assert (Hno : forall m, In m [mkMember 2 (mkSpecies "unhatchable" None)] ->
                          speciesMatches (0 + 1) m = false).
  { intros m [<-|[]]. reflexivity. }
  split; [lia|]. split; [lia|]. split; [exact Hno|].
  exact (constructEggs_no_match_raises 0 2 3 1 _ 1 exampleWorld
           ltac:(lia) ltac:(lia) Hno).
Defined.

Example constructEggs_empty_catalog_raises :
  constructEggs 0 2 3 1 [] true 1 exampleWorld = Raise TypeError.
Proof. reflexivity. Qed.

Example constructEggs_zero :
  returned (constructEggs 0 2 3 0 exampleCatalog true 3 exampleWorld) = Some [].
Proof. reflexivity. Qed.

(** * Further properties of the code *)

(** ** Identifier ranges and their tiers *)

Lemma getIDBoundarys_tier_of_id_aux (t id : Z) :
  0 <= t -> inInterval id (getIDBoundarys t) -> id / EGG_SEED = t.
Proof.
  intros Ht. unfold inInterval, getIDBoundarys, EGG_SEED. cbn [fst snd].
  intros [Hlo Hhi].
  symmetry. apply (Z.div_unique id 1073741824 t (id - 1073741824 * t)); lia.
Qed.

(** An identifier lies in the interval of tier [t >= 0] exactly when it is
    at least 255 and [t] is its quotient by [EGG_SEED]: the intervals
    partition the identifiers from 255 on, and the tier is recovered from
    the identifier by one division. *)
Theorem getIDBoundarys_tier_of_id (t id : Z) :
  0 <= t ->
  inInterval id (getIDBoundarys t) <-> 255 <= id /\ id / EGG_SEED = t.
Proof.
  intros Ht. unfold inInterval, getIDBoundarys, EGG_SEED. cbn [fst snd].
  pose proof (Z.div_mod id 1073741824 ltac:(lia)) as Hdm.
  pose proof (Z.mod_pos_bound id 1073741824 ltac:(lia)) as Hmod.
  split.
  - intros [Hlo Hhi]. split; [lia|].
    symmetry. apply (Z.div_unique id 1073741824 t (id - 1073741824 * t)); lia.
  - intros [H255 <-]. lia.
Qed.

Lemma getIDBoundarys_tier_of_id_witness :
  inInterval 2147483650 (getIDBoundarys 2)
  <-> 255 <= 2147483650 /\ 2147483650 / EGG_SEED = 2.
Proof. exact (getIDBoundarys_tier_of_id 2 2147483650 ltac:(lia)). Defined.

(** ** When identifier generation raises *)

Lemma generateRandomID_manaphy_blocks (start end_ : Z) (w : World) :
  start / 204 <= end_ / 204 ->
  generateRandomID start end_ true w
  = Ok (start / 204 * 204
        + 204 * (hd 0 (tape w) mod (end_ / 204 - start / 204 + 1)))
       (drawn w).
Proof.
  intros Hdiv. unfold generateRandomID, random.randrange.
  change (204 =? 1) with false. change (204 =? 0) with false.
  change (0 <? 204) with true. cbv iota. rewrite manaphy_count.
  destruct (Z.leb_spec (end_ / 204 - start / 204 + 1) 0); [lia|].
  reflexivity.
Qed.

Lemma generateRandomID_manaphy_empty (start end_ : Z) (w : World) :
  end_ / 204 < start / 204 ->
  generateRandomID start end_ true w = Raise ValueError.
Proof.
  intros Hdiv. unfold generateRandomID, random.randrange.
  change (204 =? 1) with false. change (204 =? 0) with false.
  change (0 <? 204) with true. cbv iota. rewrite manaphy_count.
  destruct (Z.leb_spec (end_ / 204 - start / 204 + 1) 0); [|lia].
  reflexivity.
Qed.

(** Normal mode raises, and then [ValueError], exactly on an empty range
    [end_ < start].  Reserved-family mode only compares the 204-blocks of
    its bounds: it raises [ValueError] exactly when the block of [end_] is
    below the block of [start], and on an empty range inside one block it
    returns [start] aligned down instead of raising. *)
Theorem generateRandomID_raises_iff (start end_ : Z) (w : World) :
  (forall e, generateRandomID start end_ false w = Raise e
             <-> e = ValueError /\ end_ < start)
  /\ (forall e, generateRandomID start end_ true w = Raise e
                <-> e = ValueError /\ end_ / 204 < start / 204)
  /\ (end_ < start -> start / 204 = end_ / 204 ->
      generateRandomID start end_ true w
      = Ok (alignDown204 start) (drawn w)).
Proof.
  split; [|split].
  - intros e. split.
    + intros H. destruct (Z.le_gt_cases start end_) as [Hle|Hgt].
      * rewrite generateRandomID_normal_Ok in H by exact Hle. discriminate.
      * unfold generateRandomID in H.
        rewrite (bind_eq_Raise _ _ _ _ (randint_empty _ _ w Hgt)) in H.
        injection H as <-. split; [reflexivity | lia].
    + intros [-> Hgt]. unfold generateRandomID.
      now rewrite (bind_eq_Raise _ _ _ _ (randint_empty _ _ w Hgt)).
  - intros e. split.
    + intros H. destruct (Z.le_gt_cases (start / 204) (end_ / 204)) as [Hle|Hgt].
      * rewrite generateRandomID_manaphy_blocks in H by exact Hle. discriminate.
      * rewrite generateRandomID_manaphy_empty in H by lia.
        injection H as <-. split; [reflexivity | lia].
    + intros [-> Hgt]. now apply generateRandomID_manaphy_empty.
  - intros _ Heq. rewrite generateRandomID_manaphy_blocks by lia.
    rewrite Heq, Z.sub_diag, Z.add_0_l, Z.mod_1_r.
    unfold alignDown204. rewrite Heq. do 2 f_equal. lia.
Qed.

Example generateRandomID_manaphy_reversed :
  returned (generateRandomID 10 5 true exampleWorld) = Some 0.
Proof. reflexivity. Qed.

(** ** Where a normal-mode identifier falls *)

(** With [1 <= start <= end_] and [start] not a multiple of 204, the
    normal-mode result lies within the requested range. *)
Theorem generateRandomID_normal_in_range (start end_ : Z) (w : World) :
  1 <= start -> start mod 204 <> 0 -> start <= end_ ->
  exists v w',
    generateRandomID start end_ false w = Ok v w'
    /\ start <= v <= end_.
Proof.
  intros H1 Hmod Hse.
  pose proof (Z.mod_pos_bound (hd 0 (tape w)) (end_ - start + 1) ltac:(lia)) as Hr.
  eexists. exists (drawn w).
  split; [apply generateRandomID_normal_Ok; exact Hse|].
  set (r := start + hd 0 (tape w) mod (end_ - start + 1)) in *.
  destruct (Z.eqb_spec (r mod 204) 0) as [H0|Hn0]; [|lia].
  assert (r <> start) by (intros Heq; rewrite Heq in H0; contradiction).
  lia.
Qed.

Lemma generateRandomID_normal_in_range_witness :
  exists v w',
    generateRandomID 255 1073741823 false exampleWorld = Ok v w'
    /\ 255 <= v <= 1073741823.
Proof.
  refine (generateRandomID_normal_in_range 255 1073741823 exampleWorld _ _ _);
    [lia | vm_compute; discriminate | lia].
Defined.

(** When [start >= 2] is itself a multiple of 204, the collision break can
    take the result out of the range: some random source yields
    [start - 1]. *)
Theorem generateRandomID_normal_below_start (start end_ : Z) :
  2 <= start -> start mod 204 = 0 -> start <= end_ ->
  exists w0, returned (generateRandomID start end_ false w0) = Some (start - 1).
Proof.
  intros H2 Hmod Hse. exists (mkWorld [0] (fun _ => 0) O).
  rewrite generateRandomID_normal_Ok by exact Hse. cbn [tape hd returned].
  cbv zeta. rewrite Z.mod_0_l by lia. rewrite Z.add_0_r, Hmod.
  change (0 =? 0) with true. cbv iota. f_equal. lia.
Qed.

Lemma generateRandomID_normal_below_start_witness :
  exists w0, returned (generateRandomID 408 500 false w0) = Some (408 - 1).
Proof.
  refine (generateRandomID_normal_below_start 408 500 _ _ _);
    [lia | reflexivity | lia].
Defined.

(** ** What the reserved-family draw can reach *)

(** For [start <= end_], every multiple of 204 from [start] aligned down to
    [end_] aligned down is the result for some random source. *)
Theorem generateRandomID_manaphy_support (start end_ v : Z) :
  start <= end_ -> v mod 204 = 0 ->
  alignDown204 start <= v <= alignDown204 end_ ->
  exists w0, returned (generateRandomID start end_ true w0) = Some v.
Proof.
  unfold alignDown204. intros Hse Hmod Hv.
  pose proof (Z.div_mod v 204 ltac:(lia)) as Hdm. rewrite Hmod in Hdm.
  exists (mkWorld [v / 204 - start / 204] (fun _ => 0) O).
  rewrite generateRandomID_manaphy_Ok by exact Hse. cbn [tape hd returned].
  rewrite Z.mod_small by lia. f_equal. lia.
Qed.

Lemma generateRandomID_manaphy_support_witness :
  exists w0, returned (generateRandomID 255 1073741823 true w0) = Some 408.
Proof.
  refine (generateRandomID_manaphy_support 255 1073741823 408 _ _ _);
    [lia | reflexivity | unfold alignDown204; split; vm_compute; discriminate].
Defined.

(** ** The matcher under its two sentinel tiers *)

Lemma append_cons (c : ascii) (a b : string) :
  String.append (String c a) b = String c (String.append a b).
Proof. reflexivity. Qed.

Lemma append_empty (b : string) : String.append EmptyString b = b.
Proof. reflexivity. Qed.

Lemma prefix_append (sub s : string) :
  String.prefix sub s = true <-> exists post, s = String.append sub post.
Proof.
  revert s. induction sub as [|c sub IH]; intros s.
  - split; [intros _; now exists s | intros _; now destruct s].
  - destruct s as [|d s]; simpl;
      [split; [discriminate | intros [post H]; rewrite append_cons in H;
                              discriminate]|].
    destruct (Ascii.ascii_dec c d) as [<-|Hne].
    + rewrite IH. split; intros [post H]; exists post;
        rewrite append_cons in *; congruence.
    + split; [discriminate|].
      intros [post H]. rewrite append_cons in H. congruence.
Qed.

Lemma contains_occursIn (sub s : string) :
  contains sub s = true <-> occursIn sub s.
Proof.
  unfold occursIn. induction s as [|c s IH]; cbn [contains].
  - rewrite orb_false_r, prefix_append. split.
    + intros [post H]. exists EmptyString, post. now rewrite append_empty.
    + intros (pre & post & H). destruct pre as [|d pre].
      * rewrite append_empty in H. eauto.
      * rewrite append_cons in H. discriminate.
  - rewrite orb_true_iff, prefix_append, IH. split.
    + intros [[post H]|(pre & post & H)].
      * exists EmptyString, post. now rewrite append_empty.
      * exists (String c pre), post. now rewrite append_cons, H.
    + intros (pre & post & H). destruct pre as [|d pre].
      * left. rewrite append_empty in H. eauto.
      * right. rewrite append_cons in H. injection H as _ H. eauto.
Qed.

Lemma speciesMatches_regional (m : Member) :
  speciesMatches 6 m = true <-> isEgg (value m) <> None /\ isRegional m.
Proof.
  unfold speciesMatches, isRegional. change (6 =? 6) with true. cbv iota.
  destruct (isEgg (value m)) as [egg|].
  - rewrite existsb_exists. split.
    + intros (p & Hin & Hp). split; [discriminate|].
      exists p. now rewrite <- contains_occursIn.
    + intros (_ & p & Hin & Hp). exists p. now rewrite contains_occursIn.
  - split; [discriminate | now intros [? _]].
Qed.

Lemma speciesMatches_paradox (m : Member) :
  speciesMatches 7 m = true <-> isEgg (value m) <> None /\ isParadox m.
Proof.
  unfold speciesMatches, isParadox. change (7 =? 6) with false.
  change (7 =? 7) with true. cbv iota.
  destruct (isEgg (value m)) as [egg|].
  - change (truthy paradoxIDs) with true. rewrite andb_true_l, existsb_exists.
    split.
    + intros (k & Hin & Hk). apply Z.eqb_eq in Hk. subst k.
      split; [discriminate | exact Hin].
    + intros [_ Hin]. exists (name m). split; [exact Hin | apply Z.eqb_refl].
  - split; [discriminate | now intros [? _]].
Qed.

(** The matcher, for a tier whose policy is the property [P]. *)
Lemma getRandomSpeciesForShiny_policy (tier : Z) (P : Member -> Prop)
      (cat : list Member) (w : World) :
  (forall m, speciesMatches tier m = true <-> P m) ->
  exists r w',
    __getRandomSpeciesForShiny tier cat w = Ok r w'
    /\ (forall k e, r = Some (k, e) ->
          exists m, In m cat /\ name m = k
                    /\ isEgg (value m) = Some (mkIsEgg e) /\ P m)
    /\ (r = None <-> ~ exists m, In m cat /\ P m).
Proof.
  intros HP.
  destruct (getRandomSpeciesForShiny_cases tier cat w)
    as [[Hf Hr]|(m & egg & Hin & Hm & Hegg & Hr)].
  - exists None, w. split; [exact Hr|]. split; [discriminate|].
    split; [|reflexivity]. intros _ (m & Hin & Hm).
    assert (Hmf : In m (List.filter (speciesMatches tier) cat)).
    { apply filter_In. split; [exact Hin | now apply HP]. }
    rewrite Hf in Hmf. destruct Hmf.
  - exists (Some (name m, eggType egg)), (drawn w).
    split; [exact Hr|]. split.
    + intros k e [= <- <-]. exists m. destruct egg as [e].
      repeat split; try assumption. now apply HP.
    + split; [discriminate|]. intros Hno. exfalso. apply Hno.
      exists m. split; [exact Hin | now apply HP].
Qed.

(** Under tier 6 the matcher returns (it does not raise) the key and egg
    type of a member that has egg metadata and whose lower-cased name
    contains one of ["alola_"], ["galar_"], ["hisui_"], ["paldea_"]; it
    returns [None] exactly when the catalog has no such member.  The egg
    type itself plays no part. *)
Theorem getRandomSpeciesForShiny_regional_spec (cat : list Member) (w : World) :
  exists r w',
    __getRandomSpeciesForShiny 6 cat w = Ok r w'
    /\ (forall k e, r = Some (k, e) ->
          exists m, In m cat /\ name m = k
                    /\ isEgg (value m) = Some (mkIsEgg e)
                    /\ isRegional m)
    /\ (r = None <->
        ~ exists m, In m cat /\ isEgg (value m) <> None /\ isRegional m).
Proof.
  destruct (getRandomSpeciesForShiny_policy 6 _ cat w speciesMatches_regional)
    as (r & w' & Hr & Hsome & Hnone).
  exists r, w'. split; [exact Hr|]. split; [|exact Hnone].
  intros k e Hk. destruct (Hsome k e Hk) as (m & ? & ? & ? & _ & ?). eauto.
Qed.

(** Under tier 7 the matcher returns (it does not raise) the key and egg
    type of a member that has egg metadata and whose key is one of the
    twenty listed paradox identifiers; it returns [None] exactly when the
    catalog has no such member. *)
Theorem getRandomSpeciesForShiny_paradox_spec (cat : list Member) (w : World) :
  exists r w',
    __getRandomSpeciesForShiny 7 cat w = Ok r w'
    /\ (forall k e, r = Some (k, e) ->
          exists m, In m cat /\ name m = k
                    /\ isEgg (value m) = Some (mkIsEgg e)
                    /\ isParadox m)
    /\ (r = None <->
        ~ exists m, In m cat /\ isEgg (value m) <> None /\ isParadox m).
Proof.
  destruct (getRandomSpeciesForShiny_policy 7 _ cat w speciesMatches_paradox)
    as (r & w' & Hr & Hsome & Hnone).
  exists r, w'. split; [exact Hr|]. split; [|exact Hnone].
  intros k e Hk. destruct (Hsome k e Hk) as (m & ? & ? & ? & _ & ?). eauto.
Qed.

(** ** What the matcher can return, and what it draws *)

(** Every matching member can be the one returned: for each there is a
    random source under which the matcher returns its key and egg type. *)
Theorem getRandomSpeciesForShiny_support
        (tier : Z) (cat : list Member) (m : Member) (egg : IsEgg) :
  In m cat -> speciesMatches tier m = true -> isEgg (value m) = Some egg ->
  exists w0,
    returned (__getRandomSpeciesForShiny tier cat w0)
    = Some (Some (name m, eggType egg)).
Proof.
  intros Hin Hm Hegg.
  assert (Hmf : In m (List.filter (speciesMatches tier) cat))
    by (apply filter_In; auto).
  destruct (In_nth _ _ m Hmf) as (i & Hi & Hnth).
  exists (mkWorld [Z.of_nat i] (fun _ => 0) O).
  unfold __getRandomSpeciesForShiny. rewrite collectMatches_filter. cbn [app].
  destruct (List.filter (speciesMatches tier) cat) as [|m0 l] eqn:Hf;
    [destruct Hmf|].
  unfold random.choice, bind, random._randbelow, ret. cbn [tape hd].
  rewrite Z.mod_small by lia. rewrite Nat2Z.id.
  rewrite (nth_indep _ m0 m Hi), Hnth, Hegg. reflexivity.
Qed.

Lemma getRandomSpeciesForShiny_support_witness :
  exists w0,
    returned (__getRandomSpeciesForShiny 1 exampleCatalog w0)
    = Some (Some (19, 1)).
Proof.
  refine (getRandomSpeciesForShiny_support 1 exampleCatalog
            (mkMember 19 (mkSpecies "ALOLA_RATTATA" (Some (mkIsEgg 1))))
            (mkIsEgg 1) _ _ _);
    [simpl; auto | reflexivity | reflexivity].
Defined.

(** For every tier and catalog the matcher returns; it leaves the random
    source untouched when it returns [None] and draws from it exactly once
    when it returns a member.  The clock is never read. *)
Theorem getRandomSpeciesForShiny_draws
        (tier : Z) (cat : list Member) (w : World) :
  exists r,
    __getRandomSpeciesForShiny tier cat w
    = Ok r (match r with None => w | Some _ => drawn w end).
Proof.
  destruct (getRandomSpeciesForShiny_cases tier cat w)
    as [[_ Hr]|(m & egg & _ & _ & _ & Hr)]; eexists; exact Hr.
Qed.

(** ** The size of a batch and the order of its timestamps *)

Lemma eggLoop_timestamps tier gachaType hatchWaveCount eggTypesData
      isShiny variantTier start end_ isManaphy (n : nat) :
  forall (eggs eggs' : list Egg) (w w' : World),
    eggLoop tier gachaType hatchWaveCount eggTypesData isShiny variantTier
            n start end_ isManaphy eggs w = Ok eggs' w' ->
    forall (i : nat) (egg : Egg),
      eggs' !! (length eggs + i)%nat = Some egg ->
      egg !! "timestamp" = Some (VInt (clock w (reads w + i)%nat)).
Proof.
  induction n as [|n IH]; intros eggs eggs' w w' H i egg Hi; simpl in H.
  - injection H as <- _.
    rewrite lookup_ge_None_2 in Hi by lia. discriminate.
  - apply bind_Ok in H as (egg0 & w1 & Hegg0 & H).
    destruct (constructEgg_Ok_inv _ _ _ _ _ _ _ _ _ _ _ _ Hegg0)
      as (_ & _ & Hc & Hr & _ & _ & _ & Hts & _).
    destruct i as [|i].
    + destruct (eggLoop_Ok_inv _ _ _ _ _ _ _ _ _ _ _ _ _ _ H)
        as (_ & _ & new & -> & _).
      rewrite Nat.add_0_r, <- app_assoc in Hi.
      change ([egg0] ++ new) with (egg0 :: new) in Hi.
      rewrite list_lookup_middle in Hi by reflexivity.
      injection Hi as <-. now rewrite Nat.add_0_r.
    + specialize (IH _ _ _ _ H i egg).
      rewrite length_app in IH. simpl in IH.
      replace (length eggs + 1 + i)%nat with (length eggs + S i)%nat in IH by lia.
      rewrite (IH Hi), Hc, Hr. do 3 f_equal. lia.
Qed.

(** A returned batch has [eggAmount] eggs, none for a negative amount, and
    the call read the clock once per egg and left it otherwise alone; a
    call for no eggs returns the empty list whatever the tier, touching
    neither the random source nor the clock. *)
Theorem constructEggs_size
        (tier gachaType hatchWaveCount eggAmount : Z)
        (eggTypesData : list Member) (isShiny : bool) (variantTier : Z)
        (w : World) :
  (forall eggs w',
      constructEggs tier gachaType hatchWaveCount eggAmount eggTypesData
                    isShiny variantTier w = Ok eggs w' ->
      length eggs = Z.to_nat eggAmount
      /\ reads w' = (reads w + Z.to_nat eggAmount)%nat
      /\ clock w' = clock w)
  /\ (eggAmount <= 0 ->
      constructEggs tier gachaType hatchWaveCount eggAmount eggTypesData
                    isShiny variantTier w = Ok [] w).
Proof.
  split.
  - intros eggs w' H. rewrite constructEggs_unfold in H.
    apply eggLoop_Ok_inv in H as (Hc & Hr & new & -> & Hlen & _).
    now repeat split.
  - intros Hn. rewrite constructEggs_unfold.
    replace (Z.to_nat eggAmount) with O by lia. reflexivity.
Qed.

Lemma constructEggs_size_witness :
  constructEggs (-3) 2 3 (-1) exampleCatalog true 3 exampleWorld
  = Ok [] exampleWorld.
Proof.
  refine (proj2 (constructEggs_size (-3) 2 3 (-1) exampleCatalog true 3
                   exampleWorld) _).
  lia.
Defined.

(** The [i]-th egg of a returned batch carries the [i]-th reading the call
    took from the clock, so under a clock that never runs backwards the
    timestamps are in list order. *)
Theorem constructEggs_timestamps_in_order
        (tier gachaType hatchWaveCount eggAmount : Z)
        (eggTypesData : list Member) (isShiny : bool) (variantTier : Z)
        (w w' : World) (eggs : list Egg) :
  constructEggs tier gachaType hatchWaveCount eggAmount eggTypesData
                isShiny variantTier w = Ok eggs w' ->
  (forall (i : nat) (egg : Egg),
      eggs !! i = Some egg ->
      egg !! "timestamp" = Some (VInt (clock w (reads w + i)%nat)))
  /\ (monotoneClock (clock w) ->
      forall (i j : nat) (egg1 egg2 : Egg) (t1 t2 : Z),
        (i <= j)%nat ->
        eggs !! i = Some egg1 -> eggs !! j = Some egg2 ->
        egg1 !! "timestamp" = Some (VInt t1) ->
        egg2 !! "timestamp" = Some (VInt t2) ->
        t1 <= t2).
Proof.
  intros H. rewrite constructEggs_unfold in H.
  pose proof (eggLoop_timestamps _ _ _ _ _ _ _ _ _ _ _ _ _ _ H) as Hts.
  cbn [length Nat.add] in Hts. split; [exact Hts|].
  intros Hmono i j egg1 egg2 t1 t2 Hij H1 H2 Ht1 Ht2.
  rewrite (Hts _ _ H1) in Ht1. rewrite (Hts _ _ H2) in Ht2.
  injection Ht1 as <-. injection Ht2 as <-. apply Hmono. lia.
Qed.

Lemma constructEggs_timestamps_in_order_witness :
  exists (eggs : list Egg) w',
    constructEggs 0 2 3 2 exampleCatalog true 3 exampleWorld = Ok eggs w'
    /\ forall (i : nat) (egg : Egg),
        eggs !! i = Some egg ->
        egg !! "timestamp"
        = Some (VInt (clock exampleWorld (reads exampleWorld + i)%nat)).
Proof.
  eexists. eexists. split; [reflexivity|].
  refine (proj1 (constructEggs_timestamps_in_order 0 2 3 2 exampleCatalog
                   true 3 exampleWorld _ _ _)).
  reflexivity.
Defined.

(** ** When a batch raises and when it cannot *)

(** A negative tier has an empty identifier range, 255 to below 0: a call
    for at least one egg raises [ValueError] on its first identifier. *)
Theorem constructEggs_negative_tier_raises
        (tier gachaType hatchWaveCount eggAmount : Z)
        (eggTypesData : list Member) (isShiny : bool) (variantTier : Z)
        (w : World) :
  tier < 0 -> 0 < eggAmount ->
  constructEggs tier gachaType hatchWaveCount eggAmount eggTypesData
                isShiny variantTier w = Raise ValueError.
Proof.
  intros Ht Hn. rewrite constructEggs_unfold.
  destruct (Z.to_nat eggAmount) as [|n] eqn:Hnat; [lia|].
  apply eggLoop_Raise. unfold constructEgg.
  apply bind_eq_Raise.
  destruct (Z.eqb_spec tier 4) as [->|_]; [lia|].
  unfold generateRandomID. apply bind_eq_Raise, randint_empty.
  unfold batchRange, getIDBoundarys, EGG_SEED.
  destruct (Z.eqb_spec tier 4) as [->|_]; [lia|]. cbn [fst snd]. lia.
Qed.

Lemma constructEggs_negative_tier_raises_witness :
  constructEggs (-1) 2 3 1 exampleCatalog false 0 exampleWorld
  = Raise ValueError.
Proof.
  refine (constructEggs_negative_tier_raises (-1) 2 3 1 exampleCatalog
            false 0 exampleWorld _ _); lia.
Defined.

Lemma constructEgg_total tier gachaType hatchWaveCount eggTypesData
      isShiny variantTier start end_ isManaphy (w : World) :
  start <= end_ ->
  (exists m, In m eggTypesData /\ speciesMatches (tier + 1) m = true) ->
  exists egg w',
    constructEgg tier gachaType hatchWaveCount eggTypesData isShiny
                 variantTier start end_ isManaphy w = Ok egg w'.
Proof.
  intros Hse (m & Hin & Hm). unfold constructEgg.
  assert (Hid : exists eggID,
             generateRandomID start end_ isManaphy w = Ok eggID (drawn w)).
  { destruct isManaphy; eexists;
      [apply generateRandomID_manaphy_Ok | apply generateRandomID_normal_Ok];
      exact Hse. }
  destruct Hid as [eggID Hid].
  rewrite (bind_eq_Ok _ _ _ _ _ Hid).
  rewrite (bind_eq_Ok _ _ _ (clock w (reads w)) (ticked (drawn w)))
    by reflexivity.
  rewrite (bind_eq_Ok _ _ _ _ _
             (randint_Ok 1 64 (ticked (drawn w)) ltac:(lia))).
  destruct (isShiny || _); [|eexists; eexists; reflexivity].
  destruct (getRandomSpeciesForShiny_cases (tier + 1) eggTypesData
              (drawn (ticked (drawn w))))
    as [[Hf _]|(m' & meta & _ & _ & _ & Hr)].
  - assert (Hmf : In m (List.filter (speciesMatches (tier + 1)) eggTypesData))
      by (apply filter_In; auto).
    rewrite Hf in Hmf. destruct Hmf.
  - rewrite (bind_eq_Ok _ _ _ _ _ Hr). eexists. eexists. reflexivity.
Qed.

Lemma eggLoop_total tier gachaType hatchWaveCount eggTypesData
      isShiny variantTier start end_ isManaphy (n : nat) :
  start <= end_ ->
  (exists m, In m eggTypesData /\ speciesMatches (tier + 1) m = true) ->
  forall eggs w,
  exists eggs' w',
    eggLoop tier gachaType hatchWaveCount eggTypesData isShiny variantTier
            n start end_ isManaphy eggs w = Ok eggs' w'.
Proof.
  intros Hse Hm. induction n as [|n IH]; intros eggs w; simpl.
  - eexists. eexists. reflexivity.
  - destruct (constructEgg_total tier gachaType hatchWaveCount eggTypesData
                isShiny variantTier start end_ isManaphy w Hse Hm)
      as (egg & w1 & Hegg).
    rewrite (bind_eq_Ok _ _ _ _ _ Hegg). apply IH.
Qed.

(** For a tier [>= 0] and a catalog with at least one member matching
    [tier + 1], the call returns for every amount, every random source and
    both settings of [isShiny]: no draw can make it raise. *)
Theorem constructEggs_total
        (tier gachaType hatchWaveCount eggAmount : Z)
        (eggTypesData : list Member) (isShiny : bool) (variantTier : Z)
        (w : World) :
  0 <= tier ->
  (exists m, In m eggTypesData /\ speciesMatches (tier + 1) m = true) ->
  exists eggs w',
    constructEggs tier gachaType hatchWaveCount eggAmount eggTypesData
                  isShiny variantTier w = Ok eggs w'.
Proof.
  intros Ht Hm. rewrite constructEggs_unfold.
  apply eggLoop_total; [apply batchRange_ordered; exact Ht | exact Hm].
Qed.

Lemma constructEggs_total_witness :
  exists eggs w',
    constructEggs 3 2 3 5 exampleCatalog true 1 exampleWorld = Ok eggs w'.
Proof.
  refine (constructEggs_total 3 2 3 5 exampleCatalog true 1 exampleWorld _ _);
    [lia|].
  exists (mkMember 150 (mkSpecies "mewtwo" (Some (mkIsEgg 4)))).
  split; [simpl; auto 6 | reflexivity].
Defined.

(** ** The shape of the eggs *)

Lemma constructEgg_keys tier gachaType hatchWaveCount eggTypesData
      isShiny variantTier start end_ isManaphy (w w' : World) (egg : Egg) :
  constructEgg tier gachaType hatchWaveCount eggTypesData isShiny
               variantTier start end_ isManaphy w = Ok egg w' ->
  (egg !! "isShiny" = Some (VBool true) /\ dom egg = shinyKeys)
  \/ (egg !! "isShiny" = Some (VBool false) /\ dom egg = plainKeys).
Proof.
  unfold constructEgg. intros H.
  apply bind_Ok in H as (eggID & w1 & _ & H).
  apply bind_Ok in H as (ts & w2 & _ & H).
  apply bind_Ok in H as (roll & w3 & _ & H).
  destruct (isShiny || (roll =? 1)).
  - apply bind_Ok in H as (found & w4 & _ & H).
    apply bind_Ok in H as (p & w5 & _ & H).
    injection H as <- _. left. split; reflexivity.
  - injection H as <- _. right. split; reflexivity.
Qed.

(** Every egg of a returned batch echoes the caller's [gachaType] and
    [hatchWaveCount] and has exactly the keys [id], [gachaType],
    [hatchWaves], [timestamp], [isShiny], [variantTier], [sourceType] and
    [tier], plus [species] exactly when it is shiny: a returned egg never
    lacks its [tier]. *)
Theorem constructEggs_keys
        (tier gachaType hatchWaveCount eggAmount : Z)
        (eggTypesData : list Member) (isShiny : bool) (variantTier : Z)
        (w w' : World) (eggs : list Egg) :
  constructEggs tier gachaType hatchWaveCount eggAmount eggTypesData
                isShiny variantTier w = Ok eggs w' ->
  Forall (fun egg : Egg =>
            egg !! "gachaType" = Some (VInt gachaType)
            /\ egg !! "hatchWaves" = Some (VInt hatchWaveCount)
            /\ ((egg !! "isShiny" = Some (VBool true)
                 /\ dom egg = shinyKeys)
                \/ (egg !! "isShiny" = Some (VBool false)
                    /\ dom egg = plainKeys))) eggs.
Proof.
  intros H. apply constructEggs_Ok_inv in H as (_ & _ & Hall).
  eapply Forall_impl; [exact Hall|].
  intros egg (wi & wi' & Hegg & _).
  pose proof (constructEgg_keys _ _ _ _ _ _ _ _ _ _ _ _ Hegg) as Hkeys.
  apply constructEgg_Ok_inv in Hegg as (_ & _ & _ & _ & _ & Hg & Hh & _).
  auto.
Qed.

Lemma constructEggs_keys_witness :
  exists eggs w',
    constructEggs 0 2 3 2 exampleCatalog true 3 exampleWorld = Ok eggs w'
    /\ Forall (fun egg : Egg =>
                 egg !! "gachaType" = Some (VInt 2)
                 /\ egg !! "hatchWaves" = Some (VInt 3)
                 /\ ((egg !! "isShiny" = Some (VBool true)
                      /\ dom egg = shinyKeys)
                     \/ (egg !! "isShiny" = Some (VBool false)
                         /\ dom egg = plainKeys))) eggs.
Proof.
  eexists. eexists. split; [reflexivity|].
  refine (constructEggs_keys 0 2 3 2 exampleCatalog true 3 exampleWorld _ _ _).
  reflexivity.
Defined.

(** Outside the two sentinel cases, batch tiers 5 and 6, every egg of a
    returned batch, shiny or not, has the batch tier as its [tier]: the
    species substitution picks a member of egg type [tier + 1] and stores
    that less one. *)
Theorem constructEggs_tier_kept
        (tier gachaType hatchWaveCount eggAmount : Z)
        (eggTypesData : list Member) (isShiny : bool) (variantTier : Z)
        (w w' : World) (eggs : list Egg) :
  tier <> 5 -> tier <> 6 ->
  constructEggs tier gachaType hatchWaveCount eggAmount eggTypesData
                isShiny variantTier w = Ok eggs w' ->
  Forall (fun egg : Egg => egg !! "tier" = Some (VInt tier)) eggs.
Proof.
  intros H5 H6 H. apply constructEggs_Ok_inv in H as (_ & _ & Hall).
  eapply Forall_impl; [exact Hall|].
  intros egg (wi & wi' & Hegg & _).
  apply constructEgg_Ok_inv in Hegg
    as (_ & _ & _ & _ & _ & _ & _ & _ & [Hs|Hn]).
  - destruct Hs as (_ & _ & _ & m & meta & _ & Hm & Hmeta & _ & Htier).
    apply speciesMatches_default in Hm as (meta' & Hmeta' & Hty); [|lia|lia].
    rewrite Hmeta in Hmeta'. injection Hmeta' as <-.
    rewrite Htier, Hty. do 2 f_equal. lia.
  - destruct Hn as (_ & _ & _ & _ & Htier & _). exact Htier.
Qed.

Lemma constructEggs_tier_kept_witness :
  exists eggs w',
    constructEggs 0 2 3 2 exampleCatalog true 3 exampleWorld = Ok eggs w'
    /\ Forall (fun egg : Egg => egg !! "tier" = Some (VInt 0)) eggs.
Proof.
  eexists. eexists. split; [reflexivity|].
  refine (constructEggs_tier_kept 0 2 3 2 exampleCatalog true 3
            exampleWorld _ _ _ _ _); [lia | lia | reflexivity].
Defined.

(** In a batch returned by a call that does not force shininess, every egg
    has [variantTier = 0]; a non-shiny egg has the caller's [gachaType] as
    [sourceType], the batch tier and no [species], while an egg that
    rolled shiny has [sourceType = 1] whatever the [gachaType]. *)
Theorem constructEggs_unforced
        (tier gachaType hatchWaveCount eggAmount : Z)
        (eggTypesData : list Member) (variantTier : Z)
        (w w' : World) (eggs : list Egg) :
  constructEggs tier gachaType hatchWaveCount eggAmount eggTypesData
                false variantTier w = Ok eggs w' ->
  Forall (fun egg : Egg =>
            egg !! "variantTier" = Some (VInt 0)
            /\ (egg !! "isShiny" = Some (VBool false) ->
                egg !! "sourceType" = Some (VInt gachaType)
                /\ egg !! "tier" = Some (VInt tier)
                /\ egg !! "species" = None)
            /\ (egg !! "isShiny" = Some (VBool true) ->
                egg !! "sourceType" = Some (VInt 1))) eggs.
Proof.
  intros H. apply constructEggs_Ok_inv in H as (_ & _ & Hall).
  eapply Forall_impl; [exact Hall|].
  intros egg (wi & wi' & Hegg & _).
  apply constructEgg_Ok_inv in Hegg
    as (_ & _ & _ & _ & _ & _ & _ & _ & [Hs|Hn]).
  - destruct Hs as (Hshiny & Hvar & Hsrc & _).
    split; [exact Hvar|]. split; [congruence | auto].
  - destruct Hn as (_ & Hshiny & Hvar & Hsrc & Htier & Hsp).
    split; [exact Hvar|]. split; [auto | congruence].
Qed.

Lemma constructEggs_unforced_witness :
  exists eggs w',
    constructEggs 0 2 3 1 exampleCatalog false 7
                  (mkWorld [0; 0; 1] exampleClock O) = Ok eggs w'
    /\ Forall (fun egg : Egg => egg !! "variantTier" = Some (VInt 0)) eggs.
Proof.
  eexists. eexists. split; [reflexivity|].
  eapply Forall_impl;
    [refine (constructEggs_unforced 0 2 3 1 exampleCatalog 7
               (mkWorld [0; 0; 1] exampleClock O) _ _ _); reflexivity|].
  intros egg [Hv _]. exact Hv.
Defined.

(** ** Identifiers and the tier they decode to *)

Lemma seed_multiple_of_204 (tier : Z) :
  0 < tier < 51 -> (tier * EGG_SEED) mod 204 <> 0.
Proof.
  intros Ht Hmod. unfold EGG_SEED in Hmod.
  apply Z.mod_divide in Hmod; [|lia].
  assert (H51 : (51 | 1073741824 * tier)).
  { destruct Hmod as [k Hk]. exists (4 * k). lia. }
  apply Z.gauss in H51; [|reflexivity].
  apply Z.divide_pos_le in H51; lia.
Qed.

Lemma generateRandomID_normal_value (start end_ v : Z) (w w' : World) :
  start <= end_ ->
  generateRandomID start end_ false w = Ok v w' ->
  exists r, start <= r <= end_ /\ v = breakCollision r.
Proof.
  intros Hse H. rewrite generateRandomID_normal_Ok in H by exact Hse.
  injection H as <- _.
  pose proof (Z.mod_pos_bound (hd 0 (tape w)) (end_ - start + 1) ltac:(lia)).
  exists (start + hd 0 (tape w) mod (end_ - start + 1)).
  split; [lia | reflexivity].
Qed.

(** For a batch tier from 0 to 50 other than 4, every egg of a returned
    batch has an identifier inside the tier's interval that is not a
    multiple of 204 and whose quotient by [EGG_SEED] is the batch tier. *)
Theorem constructEggs_ids_decode
        (tier gachaType hatchWaveCount eggAmount : Z)
        (eggTypesData : list Member) (isShiny : bool) (variantTier : Z)
        (w w' : World) (eggs : list Egg) :
  0 <= tier < 51 -> tier <> 4 ->
  constructEggs tier gachaType hatchWaveCount eggAmount eggTypesData
                isShiny variantTier w = Ok eggs w' ->
  Forall (fun egg : Egg =>
            exists id, egg !! "id" = Some (VInt id)
                       /\ inInterval id (getIDBoundarys tier)
                       /\ id mod 204 <> 0
                       /\ id / EGG_SEED = tier) eggs.
Proof.
  intros Ht H4 H. apply constructEggs_Ok_inv in H as (_ & _ & Hall).
  eapply Forall_impl; [exact Hall|].
  intros egg (wi & wi' & Hegg & _).
  apply constructEgg_Ok_inv in Hegg as (id & Hid & _ & _ & Hlook & _).
  exists id. split; [exact Hlook|].
  unfold batchRange in Hid.
  destruct (Z.eqb_spec tier 4) as [|_]; [contradiction|].
  destruct (getIDBoundarys_spec tier ltac:(lia)) as (_ & Hord & H255).
  apply generateRandomID_normal_value in Hid as (r & Hr & ->); [|exact Hord].
  destruct (breakCollision_spec r) as [_ Hnm].
  assert (Hstart : fst (getIDBoundarys tier) mod 204 <> 0).
  { unfold getIDBoundarys. cbn [fst].
    destruct (Z.eq_dec tier 0) as [->|Hne]; [discriminate|].
    pose proof (seed_multiple_of_204 tier ltac:(lia)) as Hs.
    unfold EGG_SEED in *. rewrite Z.max_l by lia. exact Hs. }
  assert (Hin : inInterval (breakCollision r) (getIDBoundarys tier)).
  { unfold inInterval, breakCollision.
    destruct (Z.eqb_spec (r mod 204) 0) as [H0|Hn0]; [|lia].
    assert (r <> fst (getIDBoundarys tier))
      by (intros Heq; rewrite Heq in H0; contradiction).
    lia. }
  split; [exact Hin|]. split; [exact Hnm|].
  apply getIDBoundarys_tier_of_id_aux; [lia | exact Hin].
Qed.

Lemma constructEggs_ids_decode_witness :
  exists eggs w',
    constructEggs 2 2 3 2 exampleCatalog false 0
                  (mkWorld [10; 5; 20; 6] exampleClock O) = Ok eggs w'
    /\ Forall (fun egg : Egg =>
                 exists id, egg !! "id" = Some (VInt id)
                            /\ inInterval id (getIDBoundarys 2)
                            /\ id mod 204 <> 0
                            /\ id / EGG_SEED = 2) eggs.
Proof.
  eexists. eexists. split; [reflexivity|].
  refine (constructEggs_ids_decode 2 2 3 2 exampleCatalog false 0
            (mkWorld [10; 5; 20; 6] exampleClock O) _ _ _ _ _);
    [lia | lia | reflexivity].
Defined.

Lemma constructEggs_manaphy_ids_witness :
  exists eggs w',
    constructEggs 4 2 3 1 exampleCatalog false 0 exampleWorld = Ok eggs w'
    /\ Forall (fun egg : Egg =>
                 exists id, egg !! "id" = Some (VInt id)
                            /\ id mod 204 = 0
                            /\ 204 <= id <= 1073741760) eggs.
Proof.
  eexists. eexists. split; [reflexivity|].
  refine (constructEggs_manaphy_ids 2 3 1 exampleCatalog false 0
            exampleWorld _ _ _).
  reflexivity.
Defined.
